(** * MathSnip Texo inference daemon: text formatter and connection handling

    A shallow embedding of [src/backends/texo/inference.py].

    - Python [str] values are lists of Unicode code points ([N]); [bytes]
      values are lists of [Byte.byte].
    - [format_latex] is a pure function and is embedded as such.
    - [cleanup], [signal_handler], [load_model], [inference],
      [run_server] and [main] act on the file system, the sockets and the
      two output streams: they are embedded in a small state-and-exception
      monad whose state holds the file system and the trace of the calls
      made so far.
    - The file system is a map from paths in normal form to files; the
      operating system refuses names and paths that are too long.
      Permissions, links and [..] are not described.
    - The daemon waits in [accept] only: clients have written their
      request when they are read, the model comes back from every call,
      and signals arrive between two connections. *)

From Stdlib Require Import NArith Ascii String Strings.Byte DecimalString Lia.
From stdpp Require Import base option list gmap.

Local Open Scope N_scope.

(** ** Python strings *)

Definition char := N.
Definition str := list char.

(** [U "..."] is the [str] literal with the given (ASCII) characters. *)
Definition U (s : string) : str := map N_of_ascii (list_ascii_of_string s).

Definition BACKSLASH : char := 92.
Definition SPACE : char := 32.
Definition NEWLINE : char := 10.

(** [str.isspace] on one character; [str.split()] and [str.strip()] use the
    same set (CPython's [_PyUnicode_IsWhitespace]). *)
Definition isspace (c : char) : bool :=
  ((0x9 <=? c) && (c <=? 0xD)) || ((0x1C <=? c) && (c <=? 0x20))
  || (c =? 0x85) || (c =? 0xA0) || (c =? 0x1680)
  || ((0x2000 <=? c) && (c <=? 0x200A))
  || (c =? 0x2028) || (c =? 0x2029) || (c =? 0x202F) || (c =? 0x205F)
  || (c =? 0x3000).

(** [str.isalnum] on one ASCII character. *)
Definition ascii_isalnum (c : char) : bool :=
  ((0x30 <=? c) && (c <=? 0x39)) || ((0x41 <=? c) && (c <=? 0x5A))
  || ((0x61 <=? c) && (c <=? 0x7A)).

(** [s.startswith(prefix)]. *)
Fixpoint startswith (s prefix : str) : bool :=
  match prefix, s with
  | [], _ => true
  | p :: prefix', c :: s' => (c =? p) && startswith s' prefix'
  | _ :: _, [] => false
  end.

(** [s.split()]: the maximal runs of non-whitespace characters of [s], in
    order.  [cur] is the run being read. *)
Fixpoint split_from (cur s : str) : list str :=
  match s with
  | [] => match cur with [] => [] | _ => [cur] end
  | c :: r =>
      if isspace c then
        match cur with
        | [] => split_from [] r
        | _ => cur :: split_from [] r
        end
      else split_from (cur ++ [c]) r
  end.

Definition str_split (s : str) : list str := split_from [] s.

(** [s.strip()]. *)
Fixpoint lstrip (s : str) : str :=
  match s with
  | c :: r => if isspace c then lstrip r else s
  | [] => []
  end.

Definition rstrip (s : str) : str := rev (lstrip (rev s)).

Definition str_strip (s : str) : str := rstrip (lstrip s).

(** A whitespace-delimited token: non-empty, without whitespace. *)
Definition is_token (t : str) : bool :=
  match t with
  | [] => false
  | _ => forallb (fun c => negb (isspace c)) t
  end.

(** ** The text formatter *)

Section Formatter.

(** [str.isalnum] outside ASCII is a table of the interpreter's Unicode
    database; it is taken as a parameter. *)
Variable unicode_isalnum : char -> bool.

Definition isalnum (c : char) : bool :=
  if c <? 0x80 then ascii_isalnum c else unicode_isalnum c.

(** The line-break token, [r"\\"]. *)
Definition LINE_BREAK : str := [BACKSLASH; BACKSLASH].

(** [next_token and next_token[0].isalnum()]. *)
Definition first_isalnum (next_token : str) : bool :=
  match next_token with
  | [] => false
  | c :: _ => isalnum c
  end.

(** What one iteration of the loop appends after [token]
    (lines 96-101). *)
Definition separator (token next_token : str) : list str :=
  if bool_decide (token = LINE_BREAK) then [[NEWLINE]]
  else if startswith token [BACKSLASH] && first_isalnum next_token
       then [[SPACE]]
       else [].

(** [for i in range(len(tokens) - 1)]: the entries appended to
    [new_tokens] by the loop. *)
Fixpoint format_loop (tokens : list str) : list str :=
  match tokens with
  | token :: (next_token :: _) as rest =>
      token :: separator token next_token ++ format_loop rest
  | _ => []
  end.

(** Lines 90-106: the loop, [new_tokens.append(tokens[-1])] and
    [''.join(new_tokens)].  Only called on a non-empty [tokens]. *)
Definition format_tokens (tokens : list str) : str :=
  concat (format_loop tokens ++ [List.last tokens []]).

Definition format_latex (latex : str) : str :=
  match latex with
  | [] => []
  | _ =>
      let tokens := str_split latex in
      match tokens with
      | [] => []
      | _ => format_tokens tokens
      end
  end.

End Formatter.

(** ** Predicates on formatted text *)

(** Every whitespace character of [s] is a space or a newline and stands
    between two non-whitespace characters; [prev] tells whether the
    character before [s] is one. *)
Fixpoint isolated_from (prev : bool) (s : str) : bool :=
  match s with
  | [] => true
  | c :: r =>
      if isspace c then
        prev && ((c =? SPACE) || (c =? NEWLINE))
        && match r with n :: _ => negb (isspace n) | [] => false end
        && isolated_from false r
      else isolated_from true r
  end.

(** [s] without its whitespace characters. *)
Fixpoint nonspace_chars (s : str) : str :=
  match s with
  | [] => []
  | c :: r => if isspace c then nonspace_chars r else c :: nonspace_chars r
  end.


(** ** Bytes and the UTF-8 codec *)

Definition bytes := list byte.

(** [B "..."] is the [bytes] literal with the given (ASCII) characters. *)
Definition B (s : string) : bytes := list_byte_of_string s.

Definition byte_of_N (n : N) : byte := default x00 (Byte.of_N n).

(** A Unicode scalar value: a code point up to U+10FFFF that is not a
    surrogate. *)
Definition is_scalar_value (c : char) : bool :=
  (c <? 0xD800) || ((0xDFFF <? c) && (c <? 0x110000)).

(** One code point as UTF-8; surrogates and values above U+10FFFF cannot be
    encoded. *)
Definition utf8_encode_char (c : char) : option (list N) :=
  if c <? 0x80 then Some [c]
  else if c <? 0x800 then Some [0xC0 + c / 64; 0x80 + c mod 64]
  else if c <? 0x10000 then
    if (0xD800 <=? c) && (c <=? 0xDFFF) then None
    else Some [0xE0 + c / 4096; 0x80 + (c / 64) mod 64; 0x80 + c mod 64]
  else if c <? 0x110000 then
    Some [0xF0 + c / 262144; 0x80 + (c / 4096) mod 64;
          0x80 + (c / 64) mod 64; 0x80 + c mod 64]
  else None.

(** [s.encode('utf-8')]; [None] stands for [UnicodeEncodeError]. *)
Fixpoint utf8_encode (s : str) : option bytes :=
  match s with
  | [] => Some []
  | c :: r =>
      match utf8_encode_char c, utf8_encode r with
      | Some cb, Some rb => Some (map byte_of_N cb ++ rb)
      | _, _ => None
      end
  end.

Definition is_continuation (x : N) : bool := (0x80 <=? x) && (x <=? 0xBF).

(** Strict UTF-8 decoding of a list of byte values: shortest form only, no
    surrogates, nothing above U+10FFFF. *)
Fixpoint utf8_decode_N (bs : list N) : option str :=
  match bs with
  | [] => Some []
  | b0 :: r0 =>
      if b0 <? 0x80 then cons b0 <$> utf8_decode_N r0
      else if (0xC2 <=? b0) && (b0 <=? 0xDF) then
        match r0 with
        | b1 :: r1 =>
            if is_continuation b1
            then cons ((b0 - 0xC0) * 64 + (b1 - 0x80)) <$> utf8_decode_N r1
            else None
        | _ => None
        end
      else if (0xE0 <=? b0) && (b0 <=? 0xEF) then
        match r0 with
        | b1 :: b2 :: r2 =>
            if ((if b0 =? 0xE0 then 0xA0 else 0x80) <=? b1)
               && (b1 <=? (if b0 =? 0xED then 0x9F else 0xBF))
               && is_continuation b2
            then cons ((b0 - 0xE0) * 4096 + (b1 - 0x80) * 64 + (b2 - 0x80))
                   <$> utf8_decode_N r2
            else None
        | _ => None
        end
      else if (0xF0 <=? b0) && (b0 <=? 0xF4) then
        match r0 with
        | b1 :: b2 :: b3 :: r3 =>
            if ((if b0 =? 0xF0 then 0x90 else 0x80) <=? b1)
               && (b1 <=? (if b0 =? 0xF4 then 0x8F else 0xBF))
               && is_continuation b2 && is_continuation b3
            then cons ((b0 - 0xF0) * 262144 + (b1 - 0x80) * 4096
                       + (b2 - 0x80) * 64 + (b3 - 0x80))
                   <$> utf8_decode_N r3
            else None
        | _ => None
        end
      else None
  end.

(** [data.decode('utf-8')]; [None] stands for [UnicodeDecodeError]. *)
Definition utf8_decode (data : bytes) : option str :=
  utf8_decode_N (map Byte.to_N data).

(** [str(n)] for a non-negative integer. *)
Definition str_of_N (n : N) : str := U (NilEmpty.string_of_uint (N.to_uint n)).


(** ** Exceptions, events and the daemon's state *)

Inductive exn :=
  | FileNotFoundError (filename : str)
  | NotADirectoryError (filename : str)
  | OSError (strerror : str)
  | UnicodeDecodeError
  | UnicodeEncodeError
  | Exception (msg : str)
  | SystemExit (code : N)
  | KeyboardInterrupt.

(** [isinstance(e, Exception)]: what [except Exception] catches.  A bare
    [except:] catches every [exn]. *)
Definition is_Exception (e : exn) : bool :=
  match e with
  | SystemExit _ | KeyboardInterrupt => false
  | _ => true
  end.

(** [isinstance(e, OSError)]. *)
Definition is_OSError (e : exn) : bool :=
  match e with
  | FileNotFoundError _ | NotADirectoryError _ | OSError _ => true
  | _ => false
  end.

Definition any_exn (e : exn) : bool := true.

Inductive stream := stdout | stderr.

Inductive device := mps | cpu.

(** The calls the daemon makes on the outside world, in the order made. *)
Inductive event :=
  | EPrint (f : stream) (line : str)
  | ESignal (signum : N)
  | EUnlink (path : str)
  | EWrite (path : str) (content : str)
  | ELoad
  | ECompile
  | EWarmup
  | ESocket
  | EBind (path : str)
  | EListen (backlog : N)
  | EAccept (conn : nat)
  | ERecv (conn : nat) (bufsize : N)
  | ESendall (conn : nat) (data : bytes) (sent : bool)
  | EClose (conn : nat)
  | EImageOpen (path : str)
  | EGenerate (path : str).

Inductive node :=
  | RegularFile (content : str)
  | SocketFile
  | Directory.

(** The file system (existing paths), the calls made so far, and the
    outcomes the transport holds for the coming [sendall] calls on the
    connection being served. *)
Record state := State {
  files : gmap str node;
  trace : list event;
  sends : list (option str)
}.

(** A client connection, for a client that has written its request or
    closed its end by the time the daemon reads: what the client wrote, an
    error of the read if any, and for each successive [sendall] whether the
    transport fails it ([Some strerror], e.g. the client has gone). *)
Record connection := Connection {
  conn_id : nat;
  payload : bytes;
  recv_error : option str;
  send_errors : list (option str)
}.

(** What happens next while the daemon waits in [server.accept()]: a
    client connects, or a signal is delivered whose disposition is to run
    a handler or to end the process (an ignored signal does not wake the
    call). *)
Inductive arrival :=
  | Connect (c : connection)
  | Signal (signum : N).

(** The parts of the world the source only calls into.  [generate] is
    what the model makes of the image at a path when its call comes back:
    an exception or a text.  A call of the model that never comes back is
    not described. *)
Record env := Env {
  pid : N;
  load_outcome : option exn;
  mps_available : bool;
  compile_outcome : option exn;
  warmup_outcome : option exn;
  generate : str -> exn + str
}.

(** ** The monad: state, exceptions, a call that never returns, and
    the end of the process by a signal *)

Inductive outcome (A : Type) :=
  | Return (a : A)
  | Raise (e : exn)
  | Blocked
  | Killed.
Arguments Return {A} a.
Arguments Raise {A} e.
Arguments Blocked {A}.
Arguments Killed {A}.

Definition M (A : Type) : Type := state -> outcome A * state.

#[global] Instance M_ret : MRet M := fun A a st => (Return a, st).

#[global] Instance M_bind : MBind M := fun A B f m st =>
  match m st with
  | (Return a, st') => f a st'
  | (Raise e, st') => (Raise e, st')
  | (Blocked, st') => (Blocked, st')
  | (Killed, st') => (Killed, st')
  end.

Definition raise {A} (e : exn) : M A := fun st => (Raise e, st).

Definition block {A} : M A := fun st => (Blocked, st).

Definition kill {A} : M A := fun st => (Killed, st).

Definition get_files : M (gmap str node) := fun st => (Return (files st), st).

Definition set_files (fs : gmap str node) : M unit :=
  fun st => (Return tt, State fs (trace st) (sends st)).

Definition emit (ev : event) : M unit :=
  fun st => (Return tt, State (files st) (trace st ++ [ev]) (sends st)).

(** [try: body / except <catches> as e: handler e]. *)
Definition try_except {A} (body : M A) (catches : exn -> bool)
    (handler : exn -> M A) : M A := fun st =>
  match body st with
  | (Raise e, st') => if catches e then handler e st' else (Raise e, st')
  | r => r
  end.

(** [try: body / finally: final].  A process that is killed runs no
    [finally] clause. *)
Definition try_finally {A} (body : M A) (final : M unit) : M A := fun st =>
  match body st with
  | (Blocked, st') => (Blocked, st')
  | (Killed, st') => (Killed, st')
  | (o, st') =>
      match final st' with
      | (Return _, st'') => (o, st'')
      | (Raise e, st'') => (Raise e, st'')
      | (Blocked, st'') => (Blocked, st'')
      | (Killed, st'') => (Killed, st'')
      end
  end.

(** ** The daemon *)

Definition SOCKET_PATH : str := U "/tmp/mathsnip_texo.sock".
Definition PID_FILE : str := U "/tmp/mathsnip_texo.pid".
Definition SIGTERM : N := 15.
Definition SIGINT : N := 2.
Definition SLASH : char := 47.
Definition DOT : char := 46.

(** [print(line, file=f, flush=True)]. *)
Definition print (f : stream) (line : str) : M unit := emit (EPrint f line).

(** *** Paths

    [s.split('/')]: the parts of [s] between its slashes, the empty ones
    included. *)
Fixpoint parts (s : str) : list str :=
  match s with
  | [] => [[]]
  | c :: r =>
      if c =? SLASH then [] :: parts r
      else match parts r with
           | x :: xs => (c :: x) :: xs
           | [] => [[c]]
           end
  end.

(** ['/'.join(names)]. *)
Fixpoint join (names : list str) : str :=
  match names with
  | [] => []
  | x :: rest =>
      match rest with
      | [] => x
      | _ => x ++ SLASH :: join rest
      end
  end.

(** [s.lstrip('/')]. *)
Fixpoint lstrip_sep (s : str) : str :=
  match s with
  | c :: r => if c =? SLASH then lstrip_sep r else s
  | [] => []
  end.

(** pathlib's [splitroot] for POSIX paths: the root and the rest.  Exactly
    two leading slashes are kept as they are; any other number of them is
    one slash. *)
Definition splitroot (part : str) : str * str :=
  match part with
  | c :: _ =>
      if c =? SLASH then
        let stripped_part := lstrip_sep part in
        if (length part - length stripped_part =? 2)%nat
        then ([SLASH; SLASH], stripped_part)
        else ([SLASH], stripped_part)
      else ([], part)
  | [] => ([], part)
  end.

(** A part that pathlib keeps: [x and x != '.']. *)
Definition is_name (x : str) : bool :=
  negb (bool_decide (x = [])) && negb (bool_decide (x = [DOT])).

(** A part without a slash, a list of names as [parse_parts] gives them,
    and the roots that [splitroot] gives. *)
Definition slash_free (x : str) : bool := forallb (fun c => negb (c =? SLASH)) x.

Definition good (ns : list str) : Prop :=
  forallb slash_free ns = true /\ forallb is_name ns = true.

Definition is_root (r : str) : Prop :=
  r = [] \/ r = [SLASH] \/ r = [SLASH; SLASH].

(** pathlib's [parse_parts] on one string: the root and the names. *)
Definition parse_parts (p : str) : str * list str :=
  let (root, rel) := splitroot p in
  (root, List.filter is_name (parts rel)).

(** [str(Path(p))]: the root and the names joined by single slashes;
    repeated and trailing slashes and [.] parts are gone, [..] parts are
    kept, and a path without root and names is [.], the current
    directory. *)
Definition Path (p : str) : str :=
  let (root, names) := parse_parts p in
  match root ++ join names with
  | [] => U "."
  | s => s
  end.

(** *** The file system

    The file system keeps each file under one name: its path with single
    slashes and without [.] parts, the current directory under [.].  The
    operating system reads two slashes at the start of a path as one. *)
Definition os_key (path : str) : str :=
  let (root, names) := parse_parts path in
  match (match root with [] => [] | _ => [SLASH] end) ++ join names with
  | [] => U "."
  | s => s
  end.

(** A path that ends with a slash or with a [.] part leads to a
    directory or to nothing. *)
Definition names_directory (path : str) : bool :=
  negb (is_name (List.last (parts path) [])).

(** The length of the UTF-8 form of a text, in bytes. *)
Definition utf8_width (c : char) : nat :=
  if c <? 0x80 then 1 else if c <? 0x800 then 2
  else if c <? 0x10000 then 3 else 4.

Fixpoint byte_length (s : str) : nat :=
  match s with
  | [] => 0
  | c :: r => utf8_width c + byte_length r
  end.

(** The limits of the operating system on a name and on a whole path, in
    bytes (the values of Linux). *)
Definition NAME_MAX : nat := 255.
Definition PATH_MAX : nat := 4096.

(** A path that the operating system refuses with [ENAMETOOLONG]. *)
Definition too_long (path : str) : bool :=
  (PATH_MAX <=? byte_length path)%nat
  || existsb (fun x => (NAME_MAX <? byte_length x)%nat) (parse_parts path).2.

(** What the operating system makes of a path: the file it leads to, no
    file (one could be made there), or a path it does not take. *)
Inductive resolution :=
  | Found (n : node)
  | Vacant
  | Refused (e : exn).

Definition resolve (fs : gmap str node) (path : str) : resolution :=
  match path with
  | [] => Refused (FileNotFoundError path)
  | _ =>
      if too_long path
      then Refused (OSError (U "[Errno 36] File name too long: '" ++ path
                             ++ U "'"))
      else match fs !! os_key path with
           | Some Directory => Found Directory
           | Some n =>
               if names_directory path then Refused (NotADirectoryError path)
               else Found n
           | None => Vacant
           end
  end.

(** The file that the operating system finds at [path], if any. *)
Definition os_lookup (fs : gmap str node) (path : str) : option node :=
  match resolve fs path with
  | Found n => Some n
  | _ => None
  end.

(** The error of a call that needs the file at [path] when there is
    none. *)
Definition os_error (fs : gmap str node) (path : str) : exn :=
  match resolve fs path with
  | Refused e => e
  | _ => FileNotFoundError path
  end.

(** The three calls below are made on the daemon's two fixed paths only,
    which are in normal form: the file is kept under the path itself.

    [os.unlink(path)]: removes a file or a socket; a directory is not
    removed. *)
Definition os_unlink (path : str) : M unit :=
  _ ← emit (EUnlink path);
  fs ← get_files;
  match os_lookup fs path with
  | Some Directory => raise (OSError (U "[Errno 21] Is a directory"))
  | Some _ => set_files (delete path fs)
  | None => raise (FileNotFoundError path)
  end.

(** [with open(path, 'w') as f: f.write(content)]: creates or truncates a
    regular file. *)
Definition write_file (path content : str) : M unit :=
  _ ← emit (EWrite path content);
  fs ← get_files;
  match path, os_lookup fs path with
  | [], _ => raise (FileNotFoundError path)
  | _, Some Directory => raise (OSError (U "[Errno 21] Is a directory"))
  | _, Some SocketFile => raise (OSError (U "[Errno 6] No such device or address"))
  | _, _ => set_files (<[path := RegularFile content]> fs)
  end.

(** [server.bind(path)]: fails when the path is taken, else creates the
    socket file. *)
Definition socket_bind (path : str) : M unit :=
  _ ← emit (EBind path);
  fs ← get_files;
  match os_lookup fs path with
  | Some _ => raise (OSError (U "[Errno 98] Address already in use"))
  | None => set_files (<[path := SocketFile]> fs)
  end.

(** pathlib's [_ignore_error]: the errors that [exists] takes for the
    answer no. *)
Definition ignored (e : exn) : bool :=
  match e with
  | FileNotFoundError _ | NotADirectoryError _ => true
  | _ => false
  end.

(** [Path(p).exists()]: [os.stat] on the normal form of [p]; an error
    other than the ignored ones is raised. *)
Definition Path_exists (p : str) : M bool :=
  fs ← get_files;
  match resolve fs (Path p) with
  | Found _ => mret true
  | Vacant => mret false
  | Refused e => if ignored e then mret false else raise e
  end.

(** What [conn.recv(bufsize)] returns when it does not fail: at most
    [bufsize] bytes of what the client wrote. *)
Definition received (c : connection) (bufsize : N) : bytes :=
  take (N.to_nat bufsize) (payload c).

(** [conn.recv(bufsize)], for a client that has written or closed: the
    call comes back at once.  The wait for a client that stays silent is
    not described. *)
Definition recv (c : connection) (bufsize : N) : M bytes :=
  _ ← emit (ERecv (conn_id c) bufsize);
  match recv_error c with
  | Some strerror => raise (OSError strerror)
  | None => mret (received c bufsize)
  end.

(** [conn.sendall(data)]. *)
Definition sendall (c : connection) (data : bytes) : M unit := fun st =>
  match sends st with
  | Some strerror :: rest =>
      (Raise (OSError strerror),
       State (files st) (trace st ++ [ESendall (conn_id c) data false]) rest)
  | _ =>
      (Return tt,
       State (files st) (trace st ++ [ESendall (conn_id c) data true])
         (tail (sends st)))
  end.

(** [conn.close()]. *)
Definition close (c : connection) : M unit := emit (EClose (conn_id c)).

(** [conn, _ = server.accept()] returning the connection [c]. *)
Definition accept (c : connection) : M unit := fun st =>
  (Return tt,
   State (files st) (trace st ++ [EAccept (conn_id c)]) (send_errors c)).

Section Daemon.

Variable unicode_isalnum : char -> bool.

(** [str(e)] for an exception [e]. *)
Variable str_exn : exn -> str.

Variable E : env.

Definition outcome_of (o : option exn) : M unit :=
  match o with
  | Some e => raise e
  | None => mret tt
  end.

(** Lines 42-69. *)
Definition load_model : M device :=
  _ ← print stderr (U "Loading model...");
  _ ← emit ELoad;
  _ ← outcome_of (load_outcome E);
  let device := if mps_available E then mps else cpu in
  _ ← print stderr (U "Compiling model with torch.compile...");
  _ ← try_except
        (_ ← emit ECompile;
         _ ← outcome_of (compile_outcome E);
         print stderr (U "Model compiled successfully"))
        is_Exception
        (fun e => print stderr
           (U "torch.compile failed (will use eager mode): " ++ str_exn e));
  _ ← print stderr
        (U "Model loaded on " ++ match device with mps => U "mps" | cpu => U "cpu" end);
  mret device.

(** Lines 109-129.  [Image.open] opens the file for reading, which fails
    for a path at which the operating system finds no file and for what
    is not a regular file; the rest ([convert], the preprocessing,
    [model.generate], [tokenizer.decode]) is the model's. *)
Definition inference (image_path : str) : M str :=
  _ ← emit (EImageOpen image_path);
  fs ← get_files;
  match os_lookup fs image_path with
  | None => raise (os_error fs image_path)
  | Some Directory => raise (OSError (U "[Errno 21] Is a directory"))
  | Some SocketFile => raise (OSError (U "[Errno 6] No such device or address"))
  | Some (RegularFile _) =>
      _ ← emit (EGenerate image_path);
      match generate E image_path with
      | inl e => raise e
      | inr latex => mret (format_latex unicode_isalnum latex)
      end
  end.

(** Lines 132-141. *)
Definition cleanup : M unit :=
  _ ← try_except (os_unlink SOCKET_PATH) is_OSError (fun _ => mret tt);
  try_except (os_unlink PID_FILE) is_OSError (fun _ => mret tt).

(** Lines 144-148. *)
Definition signal_handler (signum : N) : M unit :=
  _ ← print stderr
        (U "Received signal " ++ str_of_N signum ++ U ", shutting down...");
  _ ← cleanup;
  raise (SystemExit 0).

(** [s.encode('utf-8')] as a call. *)
Definition encode (s : str) : M bytes :=
  match utf8_encode s with
  | Some data => mret data
  | None => raise UnicodeEncodeError
  end.

(** [data.decode('utf-8')] as a call. *)
Definition decode (data : bytes) : M str :=
  match utf8_decode data with
  | Some s => mret s
  | None => raise UnicodeDecodeError
  end.

(** Lines 192-205, the body of the inner [try]; returning early is
    [continue]. *)
Definition handle_request (c : connection) : M unit :=
  data ← recv c 4096;
  match data with
  | [] => mret tt
  | _ =>
      s ← decode data;
      let image_path := str_strip s in
      found ← Path_exists image_path;
      if negb found then sendall c (B "ERROR: Image not found")
      else
        latex ← inference image_path;
        reply ← encode latex;
        sendall c reply
  end.

(** Lines 207-213, the [except Exception as e] clause. *)
Definition report_error (c : connection) (e : exn) : M unit :=
  let error_msg := U "ERROR: " ++ str_exn e in
  _ ← print stderr error_msg;
  try_except (data ← encode error_msg; sendall c data)
    any_exn (fun _ => mret tt).

(** Lines 191-215: one accepted connection. *)
Definition handle_connection (c : connection) : M unit :=
  try_finally
    (try_except (handle_request c) is_Exception (report_error c))
    (close c).

(** [signal.signal] has been called for [signum] (lines 154-155). *)
Definition handled (signum : N) : bool :=
  bool_decide (signum = SIGTERM) || bool_decide (signum = SIGINT).

(** Lines 189-215, [while True].  A signal is delivered while the daemon
    waits in [accept]: one of the two handled signals runs
    [signal_handler], any other ends the process on the spot.  With
    nothing left to arrive the daemon waits forever. *)
Fixpoint accept_loop (arrivals : list arrival) : M unit :=
  match arrivals with
  | [] => block
  | Signal signum :: _ => if handled signum then signal_handler signum else kill
  | Connect c :: rest =>
      _ ← accept c;
      _ ← handle_connection c;
      accept_loop rest
  end.

(** Lines 167-176: the warm-up inference on a blank image. *)
Definition warm_up : M unit :=
  _ ← print stderr (U "Warming up model...");
  try_except
    (_ ← emit EWarmup;
     _ ← outcome_of (warmup_outcome E);
     print stderr (U "Warmup complete"))
    is_Exception
    (fun e => print stderr (U "Warmup failed: " ++ str_exn e)).

(** Lines 151-217. *)
Definition run_server (arrivals : list arrival) : M unit :=
  _ ← emit (ESignal SIGTERM);
  _ ← emit (ESignal SIGINT);
  _ ← cleanup;
  _ ← write_file PID_FILE (str_of_N (pid E));
  _ ← load_model;
  _ ← warm_up;
  _ ← emit ESocket;
  _ ← socket_bind SOCKET_PATH;
  _ ← emit (EListen 1);
  _ ← print stdout (U "READY");
  _ ← print stderr (U "Server listening on " ++ SOCKET_PATH);
  try_finally (accept_loop arrivals) cleanup.

(** Lines 220-236.  [argv] is [sys.argv], the script's name first. *)
Definition main (argv : list str) (arrivals : list arrival) : M unit :=
  match argv with
  | [_; arg] =>
      if bool_decide (arg = U "--server") then run_server arrivals
      else
        let image_path := arg in
        found ← Path_exists image_path;
        if negb found then
          _ ← print stderr (U "Error: Image not found: " ++ image_path);
          raise (SystemExit 1)
        else
          _ ← load_model;
          latex ← inference image_path;
          print stdout latex
  | _ =>
      _ ← print stderr (U "Usage: inference.py --server  (daemon mode)");
      _ ← print stderr
            (U "       inference.py <image_path>  (single inference)");
      raise (SystemExit 1)
  end.

End Daemon.

(** ** Observations on a trace *)

(** The bytes a client has received on connection [conn]. *)
Fixpoint delivered (conn : nat) (tr : list event) : bytes :=
  match tr with
  | [] => []
  | ESendall conn' data true :: tr' =>
      if bool_decide (conn' = conn) then data ++ delivered conn tr'
      else delivered conn tr'
  | _ :: tr' => delivered conn tr'
  end.

Definition is_model_call (ev : event) : bool :=
  match ev with
  | EImageOpen _ | EGenerate _ => true
  | _ => false
  end.

Definition is_sendall (ev : event) : bool :=
  match ev with
  | ESendall _ _ _ => true
  | _ => false
  end.

Definition READY : event := EPrint stdout (U "READY").

Definition is_stdout (ev : event) : bool :=
  match ev with
  | EPrint stdout _ => true
  | _ => false
  end.

Definition is_READY (ev : event) : bool :=
  match ev with
  | EPrint stdout line => bool_decide (line = U "READY")
  | _ => false
  end.

(** How many times the readiness marker is written in [evs]. *)
Definition count_READY (evs : list event) : nat :=
  length (filter (fun ev => is_READY ev = true) evs).

(** Nothing is written to standard output in [evs]. *)
Definition quiet (evs : list event) : bool :=
  forallb (fun ev => negb (is_stdout ev)) evs.

Definition is_accept (ev : event) : bool :=
  match ev with
  | EAccept _ => true
  | _ => false
  end.

(** A computation that only adds to the trace, and nothing on standard
    output. *)
Definition silent {A} (m : M A) : Prop :=
  forall st, exists evs, trace (m st).2 = trace st ++ evs /\ quiet evs = true.

(** An outcome that [except Exception] absorbs. *)
Definition nonfatal (o : option exn) : bool :=
  match o with
  | Some e => is_Exception e
  | None => true
  end.

Definition is_directory (fs : gmap str node) (path : str) : bool :=
  match os_lookup fs path with
  | Some Directory => true
  | _ => false
  end.

(** The conditions under which startup gets as far as the listening
    socket: no directory sits where the PID file and the socket go, the
    model loads, and neither the compilation nor the warm-up is
    interrupted. *)
Definition starts (E : env) (fs : gmap str node) : bool :=
  negb (is_directory fs PID_FILE)
  && (bool_decide (load_outcome E = None) && nonfatal (compile_outcome E))
  && nonfatal (warmup_outcome E)
  && negb (is_directory fs SOCKET_PATH).

(** Whether the transport takes the next [sendall] in state [st]. *)
Definition send_ok (st : state) : bool :=
  match sends st with
  | Some _ :: _ => false
  | _ => true
  end.

(** What the client has been sent on [conn] consists of [data] alone. *)
Definition only_reply (conn : nat) (data : bytes) (evs : list event) : Prop :=
  filter (fun ev => is_sendall ev = true) evs = [ESendall conn data true].


(** A path in normal form that the operating system takes: the file
    system keeps its file under the path itself. *)
Definition plain (path : str) : bool :=
  negb (bool_decide (path = [])) && negb (too_long path)
  && bool_decide (os_key path = path) && negb (names_directory path).

(** An endpoint artifact (a socket or a regular file) is at [path]. *)
Definition artifact_at (fs : gmap str node) (path : str) : bool :=
  match os_lookup fs path with
  | Some SocketFile | Some (RegularFile _) => true
  | _ => false
  end.

(** The file system after a call of [os.unlink(path)], failed or not. *)
Definition unlinked (path : str) (fs : gmap str node) : gmap str node :=
  match os_lookup fs path with
  | Some SocketFile | Some (RegularFile _) => delete path fs
  | _ => fs
  end.

(** [st] after the calls [evs], with the file system [fs]. *)
Definition after (st : state) (fs : gmap str node) (evs : list event) : state :=
  State fs (trace st ++ evs) (sends st).

(** A rendering of exceptions as text, for the examples.  CPython's texts
    carry more detail (byte offsets, quoting of file names); no property
    below depends on the rendering. *)
Definition example_str_exn (e : exn) : str :=
  match e with
  | FileNotFoundError filename =>
      U "[Errno 2] No such file or directory: '" ++ filename ++ U "'"
  | NotADirectoryError filename =>
      U "[Errno 20] Not a directory: '" ++ filename ++ U "'"
  | OSError strerror => strerror
  | UnicodeDecodeError => U "'utf-8' codec can't decode byte"
  | UnicodeEncodeError => U "'utf-8' codec can't encode character"
  | Exception msg => msg
  | SystemExit code => str_of_N code
  | KeyboardInterrupt => []
  end.

(** An environment for the examples: the model loads, compiles and warms
    up, and recognises [x^2] in every image. *)
Definition example_env : env :=
  Env 4242 None false None None (fun _ => inr (U "x ^ 2")).

(** An environment whose model fails on every image with a message that
    holds a lone surrogate. *)
Definition surrogate_env : env :=
  Env 4242 None false None None (fun _ => inl (Exception [0xD800])).

(** An environment in which the model cannot be loaded. *)
Definition broken_env : env :=
  Env 4242 (Some (OSError (U "FormulaNet is not a local folder")))
    false None None (fun _ => inr []).

(** A file system for the examples: the current directory and one image. *)
Definition example_files : gmap str node :=
  {[ U "." := Directory; U "/tmp/formula.png" := RegularFile [] ]}.

Definition example_state : state := State example_files [] [].

(** Clients for the examples: one that connects and leaves, one that sends
    bytes that are not UTF-8, one that asks for a file that is not there,
    one that sends a blank and a newline, one that asks for the image. *)
Definition silent_client : connection := Connection 0 [] None [].
Definition garbled_client : connection := Connection 1 [xff; xfe] None [].
Definition missing_client : connection :=
  Connection 2 (B " /tmp/missing.png ") None [].
Definition blank_client : connection :=
  Connection 3 [x20; x0a] None [].
Definition image_client : connection :=
  Connection 4 (B "/tmp/formula.png") None [].


(** The events of a request before any reply: the read, the opening of
    the image, the call of the model. *)
Definition is_request_event (ev : event) : bool :=
  match ev with
  | ERecv _ _ | EImageOpen _ | EGenerate _ => true
  | _ => false
  end.

Definition is_close (ev : event) : bool :=
  match ev with
  | EClose _ => true
  | _ => false
  end.

(** A [sendall] that the transport took. *)
Definition is_delivery (ev : event) : bool :=
  match ev with
  | ESendall _ _ sent => sent
  | _ => false
  end.

(** How many [sendall]s of [evs] the transport took. *)
Definition deliveries (evs : list event) : nat :=
  length (List.filter is_delivery evs).

(** The events of one connection between its [accept] and its [close]. *)
Definition is_inner_event (ev : event) : bool :=
  negb (is_accept ev) && negb (is_close ev) && negb (is_stdout ev).

(** The events of one served connection: its accept, what the handler
    does, its close. *)
Definition connection_block (c : connection) (block : list event) : Prop :=
  exists evs,
    block = EAccept (conn_id c) :: evs ++ [EClose (conn_id c)]
    /\ forallb is_inner_event evs = true.

(** The model raises nothing but [Exception]s. *)
Definition well_behaved (E : env) : Prop :=
  forall path e, generate E path = inl e -> is_Exception e = true.

(** The file system while the daemon serves, started from [fs]. *)
Definition serving_files (E : env) (fs : gmap str node) : gmap str node :=
  <[SOCKET_PATH := SocketFile]>
    (<[PID_FILE := RegularFile (str_of_N (pid E))]>
       (unlinked PID_FILE (unlinked SOCKET_PATH fs))).

(** * Properties *)

Example utf8_roundtrip_sample :
  utf8_encode [0x41; 0xE9; 0x20AC; 0x1F600; 0x7FF; 0x800; 0xFFFF; 0x10000; 0x10FFFF]
  = Some (map byte_of_N [0x41; 0xC3; 0xA9; 0xE2; 0x82; 0xAC; 0xF0; 0x9F; 0x98; 0x80;
            0xDF; 0xBF; 0xE0; 0xA0; 0x80; 0xEF; 0xBF; 0xBF; 0xF0; 0x90; 0x80; 0x80; 0xF4; 0x8F; 0xBF; 0xBF])
  /\ utf8_decode (map byte_of_N [0x41; 0xC3; 0xA9; 0xE2; 0x82; 0xAC; 0xF0; 0x9F; 0x98; 0x80;
            0xDF; 0xBF; 0xE0; 0xA0; 0x80; 0xEF; 0xBF; 0xBF; 0xF0; 0x90; 0x80; 0x80; 0xF4; 0x8F; 0xBF; 0xBF])
     = Some [0x41; 0xE9; 0x20AC; 0x1F600; 0x7FF; 0x800; 0xFFFF; 0x10000; 0x10FFFF]
  /\ utf8_decode (map byte_of_N [0xC0; 0x80]) = None
  /\ utf8_decode (map byte_of_N [0xED; 0xA0; 0x80]) = None
  /\ utf8_decode (map byte_of_N [0xF4; 0x90; 0x80; 0x80]) = None
  /\ utf8_decode (map byte_of_N [0xE2; 0x82]) = None
  /\ utf8_decode (map byte_of_N [0xFF]) = None
  /\ utf8_encode [0xD800] = None
  /\ str_of_N 4096 = U "4096" /\ str_of_N 0 = U "0".
Proof. vm_compute. repeat split. Qed.

(** ** Splitting on whitespace *)

Definition nonspace (t : str) : bool := forallb (fun c => negb (isspace c)) t.

Lemma is_token_nonspace t : is_token t = true <-> t <> [] /\ nonspace t = true.
Proof.
  destruct t as [|c t]; simpl; split; try done.
  - intros [? _]; done.
  - intros [_ ?]; done.
Qed.

Lemma nonspace_app t1 t2 :
  nonspace (t1 ++ t2) = nonspace t1 && nonspace t2.
Proof. apply forallb_app. Qed.






Lemma split_from_tokens s : forall cur,
  nonspace cur = true -> Forall (fun t => is_token t = true) (split_from cur s).
Proof.
  induction s as [|c s IH]; intros cur Hcur; simpl.
  - destruct cur as [|a cur]; constructor; [|constructor].
    apply is_token_nonspace. by split.
  - destruct (isspace c) eqn:Hc.
    + destruct cur as [|a cur]; [by apply IH|].
      constructor; [|by apply IH]. apply is_token_nonspace. by split.
    + apply IH. rewrite nonspace_app, Hcur. simpl. by rewrite Hc.
Qed.

Lemma str_split_tokens s : Forall (fun t => is_token t = true) (str_split s).
Proof. by apply split_from_tokens. Qed.

Section FormatterProperties.

Variable unicode_isalnum : char -> bool.

Lemma format_tokens_one t : format_tokens unicode_isalnum [t] = t.
Proof. unfold format_tokens. simpl. by rewrite app_nil_r. Qed.

Lemma format_tokens_cons t t' r :
  format_tokens unicode_isalnum (t :: t' :: r)
  = t ++ concat (separator unicode_isalnum t t') ++ format_tokens unicode_isalnum (t' :: r).
Proof.
  unfold format_tokens.
  change (format_loop unicode_isalnum (t :: t' :: r))
    with (t :: separator unicode_isalnum t t' ++ format_loop unicode_isalnum (t' :: r)).
  change (List.last (t :: t' :: r) []) with (List.last (t' :: r) []).
  simpl. by rewrite <- app_assoc, concat_app.
Qed.

(** The output is assembled boundary by boundary. *)
Lemma format_tokens_app pre x y post :
  format_tokens unicode_isalnum (pre ++ x :: y :: post)
  = format_tokens unicode_isalnum (pre ++ [x]) ++ concat (separator unicode_isalnum x y)
    ++ format_tokens unicode_isalnum (y :: post).
Proof.
  induction pre as [|p pre IH]; simpl.
  - by rewrite format_tokens_cons, format_tokens_one.
  - destruct pre as [|q pre]; simpl in *.
    + rewrite !format_tokens_cons, format_tokens_one.
      by rewrite <- !app_assoc.
    + rewrite !(format_tokens_cons p q), IH. by rewrite <- !app_assoc.
Qed.

Lemma format_tokens_last pre x : exists a, format_tokens unicode_isalnum (pre ++ [x]) = a ++ x.
Proof.
  induction pre as [|p pre [a IH]]; simpl.
  - exists []. by rewrite format_tokens_one.
  - destruct pre as [|q pre]; simpl in *.
    + rewrite format_tokens_cons, format_tokens_one. eexists.
      by rewrite app_assoc.
    + rewrite format_tokens_cons, IH. eexists. by rewrite !app_assoc.
Qed.

Lemma format_tokens_first y post :
  exists z, format_tokens unicode_isalnum (y :: post) = y ++ z.
Proof.
  destruct post as [|q post].
  - exists []. by rewrite format_tokens_one, app_nil_r.
  - rewrite format_tokens_cons. eauto.
Qed.

Lemma format_latex_tokens latex :
  str_split latex <> [] -> format_latex unicode_isalnum latex = format_tokens unicode_isalnum (str_split latex).
Proof.
  intros H. destruct latex as [|c latex]; [done|].
  unfold format_latex.
  by destruct (str_split (c :: latex)).
Qed.

Lemma separator_cases token next_token :
  concat (separator unicode_isalnum token next_token) = [SPACE]
  /\ token <> LINE_BREAK /\ startswith token [BACKSLASH] = true
     /\ first_isalnum unicode_isalnum next_token = true
  \/ concat (separator unicode_isalnum token next_token) = [NEWLINE] /\ token = LINE_BREAK
  \/ concat (separator unicode_isalnum token next_token) = []
     /\ token <> LINE_BREAK
     /\ (startswith token [BACKSLASH] = false
         \/ first_isalnum unicode_isalnum next_token = false).
Proof.
  unfold separator. case_bool_decide as Hlb.
  - right; left. done.
  - destruct (startswith token [BACKSLASH]) eqn:Hs; simpl.
    + destruct (first_isalnum unicode_isalnum next_token) eqn:Ha; [left|right; right]; naive_solver.
    + right; right. naive_solver.
Qed.

(** C6: between a token and what follows it the formatter puts one space
    exactly when the token begins with the backslash, is not the line-break
    token, has a successor, and the successor's first character is
    alphanumeric; otherwise it puts a newline or nothing, and nothing at
    all after the last token. *)
Theorem format_latex_space_iff latex pre token rest :
  str_split latex = pre ++ token :: rest ->
  exists a sep,
    format_latex unicode_isalnum latex
      = (a ++ token) ++ sep ++ format_tokens unicode_isalnum rest
    /\ a ++ token = format_tokens unicode_isalnum (pre ++ [token])
    /\ (forall next_token post, rest = next_token :: post ->
          exists z, format_tokens unicode_isalnum rest = next_token ++ z)
    /\ (sep = [SPACE] <->
          startswith token [BACKSLASH] = true
          /\ token <> LINE_BREAK
          /\ exists next_token post,
               rest = next_token :: post
               /\ first_isalnum unicode_isalnum next_token = true)
    /\ (sep = [SPACE] \/ sep = [NEWLINE] \/ sep = [])
    /\ (rest = [] -> sep = []).
Proof.
  intros Hsplit.
  destruct (format_tokens_last pre token) as [a Ha]. exists a.
  rewrite format_latex_tokens by (rewrite Hsplit; by destruct pre).
  rewrite Hsplit. destruct rest as [|next_token post].
  - exists []. rewrite Ha.
    split; [by rewrite app_nil_r|]. split; [done|]. split; [done|].
    split; [|split; [by right; right|done]].
    split; [done|]. intros (_ & _ & ? & ? & ? & _). done.
  - exists (concat (separator unicode_isalnum token next_token)).
    rewrite format_tokens_app, Ha. split; [done|]. split; [done|].
    split; [intros ? ? [= <- <-]; apply format_tokens_first|].
    destruct (separator_cases token next_token)
      as [(-> & Hlb & Hs & Hal)|[(-> & Hlb)|(-> & Hlb & Hno)]].
    + split; [|split; [by left|done]].
      split; [|done]. intros _. eauto 6.
    + split; [|split; [by right; left|done]].
      split; [done|]. intros (_ & ? & _). done.
    + split; [|split; [by right; right|done]].
      split; [done|].
      intros (Hs & _ & ? & ? & [= <- <-] & Hal). destruct Hno; congruence.
Qed.

(** C5, as amended: a line-break token that has a successor is followed
    in the output by one newline, and what comes after that newline is not
    whitespace; a line-break token that is the last token ends the output,
    with no newline after it. *)
Theorem format_latex_linebreak_newline latex pre rest :
  str_split latex = pre ++ LINE_BREAK :: rest ->
  exists a,
    a ++ LINE_BREAK = format_tokens unicode_isalnum (pre ++ [LINE_BREAK])
    /\ match rest with
       | [] => format_latex unicode_isalnum latex = a ++ LINE_BREAK
       | next_token :: post =>
           exists c z,
             format_latex unicode_isalnum latex
             = (a ++ LINE_BREAK) ++ [NEWLINE] ++ c :: z
             /\ c :: z = format_tokens unicode_isalnum (next_token :: post)
             /\ isspace c = false
       end.
Proof.
  intros Hsplit.
  destruct (format_tokens_last pre LINE_BREAK) as [a Ha].
  exists a. split; [done|].
  rewrite format_latex_tokens by (rewrite Hsplit; by destruct pre).
  rewrite Hsplit. destruct rest as [|next_token post]; [done|].
  destruct (format_tokens_first next_token post) as [z Hz].
  assert (is_token next_token = true) as Htok.
  { pose proof (str_split_tokens latex) as Hall. rewrite Hsplit in Hall.
    apply Forall_app in Hall as [_ Hall].
    apply Forall_cons in Hall as [_ Hall].
    by apply Forall_cons in Hall as [? _]. }
  destruct next_token as [|c next_token]; [done|].
  exists c, (next_token ++ z).
  rewrite format_tokens_app, Ha, Hz.
  split; [done|]. split; [done|].
  simpl in Htok. apply andb_prop in Htok as [Hc _].
  by apply negb_true_iff in Hc.
Qed.

(** *** Whitespace in the output *)

Lemma isolated_from_nonspace t : forall s,
  nonspace t = true ->
  isolated_from true (t ++ s) = isolated_from true s.
Proof.
  induction t as [|c t IH]; intros s Ht; simpl in *; [done|].
  apply andb_prop in Ht as [Hc Ht]. apply negb_true_iff in Hc.
  rewrite Hc. by apply IH.
Qed.

Lemma isolated_from_token prev t s :
  is_token t = true ->
  isolated_from prev (t ++ s) = isolated_from true s.
Proof.
  intros [Hne Ht]%is_token_nonspace. destruct t as [|c t]; [done|].
  simpl in *. apply andb_prop in Ht as [Hc Ht]. apply negb_true_iff in Hc.
  rewrite Hc. by apply isolated_from_nonspace.
Qed.

Lemma isolated_from_format_tokens tokens : forall prev,
  tokens <> [] ->
  Forall (fun t => is_token t = true) tokens ->
  isolated_from prev (format_tokens unicode_isalnum tokens) = true.
Proof.
  induction tokens as [|t tokens IH]; intros prev Hne Hall; [done|].
  apply Forall_cons in Hall as [Ht Hall].
  destruct tokens as [|t' r].
  - rewrite format_tokens_one. rewrite <- (app_nil_r t).
    by rewrite isolated_from_token.
  - rewrite format_tokens_cons, isolated_from_token by done.
    pose proof Hall as Hall'. apply Forall_cons in Hall' as [Ht' _].
    destruct (format_tokens_first t' r) as [z Hz].
    destruct (separator_cases t t')
      as [(-> & _)|[(-> & _)|(-> & _)]]; simpl.
    + rewrite IH by done. rewrite Hz.
      destruct t' as [|c t']; [done|]. simpl in *.
      apply andb_prop in Ht' as [-> _]. done.
    + rewrite IH by done. rewrite Hz.
      destruct t' as [|c t']; [done|]. simpl in *.
      apply andb_prop in Ht' as [-> _]. done.
    + by apply IH.
Qed.

Lemma isolated_from_spec a : forall prev s c z,
  isolated_from prev s = true ->
  s = a ++ c :: z -> isspace c = true ->
  (c = SPACE \/ c = NEWLINE)
  /\ (a = [] -> prev = true)
  /\ (forall a' p, a = a' ++ [p] -> isspace p = false)
  /\ (exists n z', z = n :: z' /\ isspace n = false).
Proof.
  induction a as [|x a IH]; intros prev s c z Hiso -> Hc; simpl in Hiso.
  - rewrite Hc in Hiso.
    apply andb_prop in Hiso as [Hiso _].
    apply andb_prop in Hiso as [Hiso Hnext].
    apply andb_prop in Hiso as [Hprev Hchar].
    split; [|split; [done|split]].
    + apply orb_prop in Hchar as [H|H]; apply N.eqb_eq in H; auto.
    + intros [|??] ? ?; simplify_eq.
    + destruct z as [|n z']; [done|]. apply negb_true_iff in Hnext. eauto.
  - assert (exists prev', isolated_from prev' (a ++ c :: z) = true
              /\ (prev' = true -> isspace x = false)) as (prev' & Hiso' & Hx).
    { destruct (isspace x) eqn:Hsx.
      - apply andb_prop in Hiso as [_ Hiso]. exists false. done.
      - exists true. done. }
    destruct (IH _ _ _ _ Hiso' eq_refl Hc) as (Hch & Hfirst & Hprev & Hnext).
    split; [done|]. split; [done|]. split; [|done].
    intros a' p Heq. destruct a' as [|y a']; simplify_eq/=.
    + apply Hx, Hfirst. done.
    + by eapply Hprev.
Qed.

(** C9: every whitespace character of the output is a space or a newline
    that stands between two non-whitespace characters; hence no two
    whitespace characters are adjacent, and the output neither begins nor
    ends with one. *)
Theorem format_latex_whitespace_isolated latex :
  let out := format_latex unicode_isalnum latex in
  (forall a c z, out = a ++ c :: z -> isspace c = true ->
     (c = SPACE \/ c = NEWLINE)
     /\ (exists a' p, a = a' ++ [p] /\ isspace p = false)
     /\ (exists n z', z = n :: z' /\ isspace n = false))
  /\ (forall a c d z, out = a ++ c :: d :: z ->
        isspace c && isspace d = false)
  /\ (forall c z, out = c :: z -> isspace c = false)
  /\ (forall a c, out = a ++ [c] -> isspace c = false).
Proof.
  intros out.
  assert (isolated_from false out = true) as Hiso.
  { subst out. destruct (str_split latex) as [|t r] eqn:Hsplit.
    - destruct latex; simpl; [done|]. by rewrite Hsplit.
    - rewrite format_latex_tokens, Hsplit by (by rewrite Hsplit).
      apply isolated_from_format_tokens; [done|].
      rewrite <- Hsplit. apply str_split_tokens. }
  assert (forall a c z, out = a ++ c :: z -> isspace c = true ->
     (c = SPACE \/ c = NEWLINE)
     /\ (exists a' p, a = a' ++ [p] /\ isspace p = false)
     /\ (exists n z', z = n :: z' /\ isspace n = false)) as Hmain.
  { intros a c z Hout Hc.
    destruct (isolated_from_spec a _ _ _ _ Hiso Hout Hc)
      as (Hch & Hfirst & Hprev & Hnext).
    split; [done|]. split; [|done].
    destruct a as [|x a _] using rev_ind; [by specialize (Hfirst eq_refl)|].
    exists a, x. split; [done|]. by eapply Hprev. }
  split; [exact Hmain|]. split; [|split].
  - intros a c d z Hout. destruct (isspace c) eqn:Hc; [|done].
    destruct (Hmain a c (d :: z) Hout Hc) as (_ & _ & n & z' & [= <- <-] & Hn).
    by rewrite Hn.
  - intros c z Hout. destruct (isspace c) eqn:Hc; [|done].
    destruct (Hmain [] c z Hout Hc) as (_ & (a' & p & Ha & _) & _).
    by destruct a'.
  - intros a c Hout. destruct (isspace c) eqn:Hc; [|done].
    destruct (Hmain a c [] Hout Hc) as (_ & _ & n & z' & ? & _). done.
Qed.

(** *** Text that is already spaced *)








End FormatterProperties.

(** The output for one command and its argument. *)
Lemma format_latex_space_iff_witness :
  str_split (U "\frac  a") = [] ++ U "\frac" :: [U "a"]
  /\ exists a sep,
       format_latex (fun _ => false) (U "\frac  a")
         = (a ++ U "\frac") ++ sep ++ format_tokens (fun _ => false) [U "a"]
       /\ sep = [SPACE].
Proof.
  split; [reflexivity|].
  destruct (format_latex_space_iff (fun _ => false) (U "\frac  a") []
              (U "\frac") [U "a"] eq_refl)
    as (a & sep & Hout & _ & _ & Hiff & _).
  exists a, sep. split; [exact Hout|].
  apply Hiff. split; [reflexivity|]. split; [discriminate|].
  exists (U "a"), []. split; reflexivity.
Defined.

Lemma format_latex_linebreak_newline_witness :
  str_split (U "a \\ b") = [U "a"] ++ LINE_BREAK :: U "b" :: []
  /\ exists a c z,
       format_latex (fun _ => false) (U "a \\ b")
         = (a ++ LINE_BREAK) ++ [NEWLINE] ++ c :: z
       /\ isspace c = false.
Proof.
  split; [reflexivity|].
  destruct (format_latex_linebreak_newline (fun _ => false) (U "a \\ b")
              [U "a"] [U "b"] eq_refl)
    as (a & _ & c & z & Hout & _ & Hc).
  exists a, c, z. split; [exact Hout | exact Hc].
Defined.



(** Outside the correctly spaced texts the formatter is not idempotent:
    the second pass sees the tokens that the first pass glued together. *)
Example format_latex_twice :
  format_latex (fun _ => false) (U "a \alpha b") = U "a\alpha b"
  /\ format_latex (fun _ => false) (U "a\alpha b") = U "a\alphab"
  /\ format_latex (fun _ => false) (U "a \\ b") = U "a\\" ++ NEWLINE :: U "b"
  /\ format_latex (fun _ => false) (U "a\\" ++ NEWLINE :: U "b") = U "a\\b".
Proof. vm_compute. repeat split. Qed.

Example format_latex_samples :
  format_latex (fun _ => false) [] = []
  /\ format_latex (fun _ => false) (U "   ") = []
  /\ format_latex (fun _ => false) (U "\frac { a } { b } \\ \alpha x")
     = U "\frac{a}{b}\\" ++ NEWLINE :: U "\alpha x"
  /\ format_latex (fun _ => false) (U "\alpha + \beta") = U "\alpha+\beta"
  /\ format_latex (fun _ => false) (U "x \alpha") = U "x\alpha".
Proof. vm_compute. repeat split. Qed.

(** C5, as stated, fails when the line-break token is the last token: it is
    appended unmodified, and the output holds no newline at all. *)
Lemma format_latex_final_linebreak_bare :
  str_split (U "x \\") = [U "x"; LINE_BREAK]
  /\ format_latex (fun _ => false) (U "x \\") = U "x\\"
  /\ ~ exists a z,
         format_latex (fun _ => false) (U "x \\") = a ++ LINE_BREAK ++ NEWLINE :: z.
Proof.
  split; [reflexivity|]. split; [reflexivity|].
  intros (a & z & H).
  assert (In NEWLINE (format_latex (fun _ => false) (U "x \\"))) as Hin.
  { rewrite H. apply in_or_app. right. apply in_or_app. right. by left. }
  vm_compute in Hin. intuition discriminate.
Qed.

(** ** The cleanup routine *)

Lemma SOCKET_PATH_nonempty : SOCKET_PATH <> [].
Proof. discriminate. Qed.

Lemma PID_FILE_nonempty : PID_FILE <> [].
Proof. discriminate. Qed.

Lemma SOCKET_PATH_PID_FILE : SOCKET_PATH <> PID_FILE.
Proof. discriminate. Qed.

(** ** Paths and the file system *)

Example Path_samples :
  Path [] = U "." /\ Path (U "./") = U "." /\ Path (U "/") = U "/"
  /\ Path (U "//") = U "//" /\ Path (U "///") = U "/"
  /\ Path (U "//a") = U "//a" /\ Path (U "///a") = U "/a"
  /\ Path (U "a//b/") = U "a/b" /\ Path (U "a/./b") = U "a/b"
  /\ Path (U "./a") = U "a" /\ Path (U "a/.") = U "a"
  /\ Path (U "/tmp/formula.png/") = U "/tmp/formula.png"
  /\ Path (U "a/..") = U "a/.." /\ Path (U "/.") = U "/"
  /\ parts (U "a//b/") = [U "a"; []; U "b"; []].
Proof. vm_compute. repeat split. Qed.

Example os_lookup_samples :
  os_lookup example_files (U "/tmp/formula.png") = Some (RegularFile [])
  /\ os_lookup example_files (U "//tmp/./formula.png") = Some (RegularFile [])
  /\ os_lookup example_files (U "/tmp/formula.png/") = None
  /\ os_error example_files (U "/tmp/formula.png/")
     = NotADirectoryError (U "/tmp/formula.png/")
  /\ os_lookup example_files (U "/tmp/formula.png/.") = None
  /\ os_lookup example_files (U "./") = Some Directory
  /\ os_lookup example_files [] = None
  /\ os_error example_files [] = FileNotFoundError []
  /\ os_lookup example_files (U "/tmp/missing.png") = None
  /\ os_error example_files (U "/tmp/missing.png")
     = FileNotFoundError (U "/tmp/missing.png")
  /\ too_long (repeat 97 255) = false /\ too_long (repeat 97 256) = true
  /\ too_long (repeat 233 127) = false /\ too_long (repeat 233 128) = true.
Proof. vm_compute. repeat split. Qed.

Lemma parts_cons s : exists x xs, parts s = x :: xs.
Proof.
  induction s as [|c s (x & xs & IH)]; simpl; [by eauto|].
  destruct (c =? SLASH); [by eauto|]. rewrite IH. by eauto.
Qed.

Lemma join_cons c x xs : join ((c :: x) :: xs) = c :: join (x :: xs).
Proof. by destruct xs. Qed.

Lemma join_parts s : join (parts s) = s.
Proof.
  induction s as [|c s IH]; [done|]. cbn [parts].
  destruct (N.eqb_spec c SLASH) as [->|Hc].
  - destruct (parts_cons s) as (x & xs & Hs). rewrite Hs in *.
    change (join ([] :: x :: xs)) with (SLASH :: join (x :: xs)).
    by rewrite IH.
  - destruct (parts_cons s) as (x & xs & Hs). rewrite Hs in *.
    cbv beta iota. rewrite join_cons. f_equal. exact IH.
Qed.

Lemma parts_slash_free s : forallb slash_free (parts s) = true.
Proof.
  induction s as [|c s IH]; [done|]. cbn [parts].
  destruct (N.eqb_spec c SLASH) as [->|Hc]; [done|].
  destruct (parts_cons s) as (x & xs & Hs). rewrite Hs in *.
  cbn [forallb slash_free] in *.
  apply andb_prop in IH as [Hx Hxs]. fold (slash_free x).
  rewrite Hx, Hxs. by destruct (N.eqb_spec c SLASH).
Qed.

Lemma parts_slash_free_app x s :
  slash_free x = true ->
  parts (x ++ SLASH :: s) = x :: parts s.
Proof.
  induction x as [|c x IH]; [done|]. cbn [slash_free forallb app parts].
  intros [Hc Hx]%andb_prop. apply negb_true_iff in Hc. rewrite Hc.
  by rewrite IH.
Qed.

Lemma parts_slash_free_one x : slash_free x = true -> parts x = [x].
Proof.
  induction x as [|c x IH]; [done|]. cbn [slash_free forallb parts].
  intros [Hc Hx]%andb_prop. apply negb_true_iff in Hc. rewrite Hc.
  by rewrite IH.
Qed.

Lemma parts_join ns :
  ns <> [] -> forallb slash_free ns = true -> parts (join ns) = ns.
Proof.
  induction ns as [|x ns IH]; [done|]. intros _.
  cbn [forallb]. intros [Hx Hns]%andb_prop.
  destruct ns as [|y ns]; [by apply parts_slash_free_one|].
  change (join (x :: y :: ns)) with (x ++ SLASH :: join (y :: ns)).
  rewrite parts_slash_free_app by done. by rewrite IH.
Qed.

Lemma filter_all {A} (f : A -> bool) xs :
  forallb f xs = true -> List.filter f xs = xs.
Proof.
  induction xs as [|x xs IH]; [done|]. cbn. intros [-> H]%andb_prop.
  by rewrite IH.
Qed.

Lemma forallb_filter {A} (f g : A -> bool) xs :
  forallb g xs = true -> forallb g (List.filter f xs) = true.
Proof.
  induction xs as [|x xs IH]; [done|]. cbn. intros [Hx H]%andb_prop.
  destruct (f x); cbn; rewrite ?Hx; by apply IH.
Qed.

Lemma forallb_filter_self {A} (f : A -> bool) xs :
  forallb f (List.filter f xs) = true.
Proof.
  induction xs as [|x xs IH]; [done|]. cbn.
  destruct (f x) eqn:Hx; cbn; by rewrite ?Hx.
Qed.

Lemma names_good rel : good (List.filter is_name (parts rel)).
Proof.
  split; [apply forallb_filter, parts_slash_free|apply forallb_filter_self].
Qed.

Lemma names_join ns : good ns -> List.filter is_name (parts (join ns)) = ns.
Proof.
  intros [Hs Hn]. destruct ns as [|x ns]; [done|].
  rewrite parts_join by done. by apply filter_all.
Qed.

Lemma good_head x ns :
  good (x :: ns) -> exists c r, x = c :: r /\ (c =? SLASH) = false.
Proof.
  intros [Hs Hn]. cbn [forallb] in *.
  apply andb_prop in Hs as [Hs _]. apply andb_prop in Hn as [Hn _].
  destruct x as [|c r]; [done|]. exists c, r. split; [done|].
  cbn in Hs. apply andb_prop in Hs as [Hs _]. by apply negb_true_iff in Hs.
Qed.

Lemma join_head x ns : exists r, join (x :: ns) = x ++ r.
Proof. destruct ns; cbn [join]; [exists []; by rewrite app_nil_r|eauto]. Qed.

Lemma splitroot_root p : is_root (splitroot p).1.
Proof.
  unfold splitroot, is_root. destruct p as [|c p]; [by left|].
  destruct (c =? SLASH); [|by left].
  destruct (_ =? 2)%nat; cbn; auto.
Qed.

Lemma lstrip_sep_head ns :
  good ns -> lstrip_sep (join ns) = join ns.
Proof.
  destruct ns as [|x ns]; [done|]. intros Hg.
  destruct (good_head _ _ Hg) as (c & r & -> & Hc).
  destruct (join_head (c :: r) ns) as [t ->]. cbn. by rewrite Hc.
Qed.

Lemma splitroot_join root ns :
  is_root root -> good ns -> splitroot (root ++ join ns) = (root, join ns).
Proof.
  intros Hr Hg. pose proof (lstrip_sep_head ns Hg) as Hl.
  destruct Hr as [->|[->| ->]].
  - cbn [app]. destruct ns as [|x ns]; [done|].
    destruct (good_head _ _ Hg) as (c & r & -> & Hc).
    destruct (join_head (c :: r) ns) as [t Ht]. rewrite Ht.
    unfold splitroot. cbn [app]. by rewrite Hc.
  - unfold splitroot. cbn [app lstrip_sep]. change (SLASH =? SLASH) with true.
    cbv iota. rewrite Hl. cbn [length].
    replace (S (length (join ns)) - length (join ns))%nat with 1%nat by lia.
    done.
  - unfold splitroot. cbn [app lstrip_sep]. change (SLASH =? SLASH) with true.
    cbv iota. rewrite Hl. cbn [length].
    replace (S (S (length (join ns))) - length (join ns))%nat with 2%nat by lia.
    done.
Qed.

Lemma join_nil ns : good ns -> join ns = [] -> ns = [].
Proof.
  destruct ns as [|x ns]; [done|]. intros Hg.
  destruct (good_head _ _ Hg) as (c & r & -> & Hc).
  destruct (join_head (c :: r) ns) as [t ->]. done.
Qed.

(** Parsing the normal form of a path gives the root and the names of
    the path. *)
Lemma parse_parts_Path p : parse_parts (Path p) = parse_parts p.
Proof.
  unfold Path, parse_parts at 2 3.
  pose proof (splitroot_root p) as Hr.
  destruct (splitroot p) as [root rel]. cbn [fst] in Hr.
  pose proof (names_good rel) as Hg.
  set (ns := List.filter is_name (parts rel)) in *.
  destruct (root ++ join ns) as [|c s] eqn:Hs.
  - apply app_eq_nil in Hs as [-> Hj]. by rewrite (join_nil ns Hg Hj).
  - rewrite <- Hs. unfold parse_parts.
    by rewrite splitroot_join, names_join.
Qed.

Lemma os_key_Path p : os_key (Path p) = os_key p.
Proof. unfold os_key. by rewrite parse_parts_Path. Qed.

Lemma byte_length_app a b : byte_length (a ++ b) = (byte_length a + byte_length b)%nat.
Proof. induction a as [|c a IH]; cbn [app byte_length]; [done|]. rewrite IH. lia. Qed.

Lemma utf8_width_pos c : (1 <= utf8_width c)%nat.
Proof. unfold utf8_width. repeat destruct (_ <? _); lia. Qed.

Lemma byte_length_join xs :
  xs <> [] ->
  S (byte_length (join xs)) = list_sum (map (fun x => S (byte_length x)) xs).
Proof.
  induction xs as [|x xs IH]; [done|]. intros _.
  destruct xs as [|y xs]; [cbn; lia|].
  specialize (IH ltac:(done)).
  change (join (x :: y :: xs)) with (x ++ SLASH :: join (y :: xs)).
  rewrite byte_length_app.
  change (byte_length (SLASH :: join (y :: xs)))
    with (S (byte_length (join (y :: xs)))).
  rewrite IH. cbn [map list_sum fold_right]. lia.
Qed.

Lemma list_sum_filter {A} (f : A -> bool) (g : A -> nat) xs :
  (list_sum (map g (List.filter f xs)) <= list_sum (map g xs))%nat.
Proof.
  induction xs as [|x xs IH]; [done|]. cbn [List.filter].
  unfold list_sum in *.
  destruct (f x); cbn [map fold_right] in *; lia.
Qed.

Lemma byte_length_join_filter f xs :
  (byte_length (join (List.filter f xs)) <= byte_length (join xs))%nat.
Proof.
  destruct (List.filter f xs) as [|y ys] eqn:Hf; [cbn; lia|].
  assert (xs <> []) as Hxs by (intros ->; done).
  pose proof (byte_length_join (y :: ys) ltac:(done)) as H1.
  pose proof (byte_length_join xs Hxs) as H2.
  pose proof (list_sum_filter f (fun x => S (byte_length x)) xs) as H3.
  rewrite Hf in H3. lia.
Qed.

Lemma lstrip_sep_length p :
  (length (lstrip_sep p) <= length p)%nat
  /\ byte_length p
     = (length p - length (lstrip_sep p) + byte_length (lstrip_sep p))%nat.
Proof.
  induction p as [|c p [IH1 IH2]]; [done|]. cbn [lstrip_sep].
  destruct (N.eqb_spec c SLASH) as [->|Hc].
  - cbn [length byte_length]. change (utf8_width SLASH) with 1%nat. lia.
  - cbn [length]. lia.
Qed.

Lemma splitroot_snd p : (splitroot p).2 = lstrip_sep p.
Proof.
  unfold splitroot. destruct p as [|c p]; [done|].
  destruct (N.eqb_spec c SLASH) as [->|Hc].
  - by destruct (_ =? 2)%nat.
  - cbn. by destruct (N.eqb_spec c SLASH).
Qed.

Lemma splitroot_length p :
  (byte_length (splitroot p).1 + byte_length (splitroot p).2
   <= byte_length p)%nat.
Proof.
  destruct (lstrip_sep_length p) as [H1 H2].
  unfold splitroot. destruct p as [|c p]; [done|].
  destruct (N.eqb_spec c SLASH) as [->|Hc]; [|cbn; lia].
  destruct (Nat.eqb_spec (length (SLASH :: p) - length (lstrip_sep (SLASH :: p))) 2)
    as [H|H]; cbn [fst snd].
  - rewrite H2, H. cbn. lia.
  - rewrite H2. assert (length (lstrip_sep (SLASH :: p)) <= length p)%nat.
    { cbn [lstrip_sep]. change (SLASH =? SLASH) with true. cbv iota.
      apply lstrip_sep_length. }
    cbn [length byte_length] in *. change (utf8_width SLASH) with 1%nat. lia.
Qed.

(** The normal form of a path is not longer than the path. *)
Lemma byte_length_Path p : p <> [] -> (byte_length (Path p) <= byte_length p)%nat.
Proof.
  intros Hp. unfold Path, parse_parts.
  pose proof (splitroot_length p) as Hlen.
  destruct (splitroot p) as [root rel]. cbn [fst snd] in Hlen.
  pose proof (byte_length_join_filter is_name (parts rel)) as Hj.
  rewrite join_parts in Hj.
  destruct (root ++ join _) as [|c s] eqn:Hs.
  - destruct p as [|c p]; [done|].
    change (byte_length (U ".")) with 1%nat. cbn [byte_length].
    pose proof (utf8_width_pos c). lia.
  - rewrite <- Hs, byte_length_app. lia.
Qed.

Lemma too_long_Path p : p <> [] -> too_long p = false -> too_long (Path p) = false.
Proof.
  unfold too_long. intros Hp [H1 H2]%orb_false_elim.
  rewrite parse_parts_Path, H2, orb_false_r.
  apply Nat.leb_gt. apply Nat.leb_gt in H1.
  pose proof (byte_length_Path p Hp). lia.
Qed.

Lemma last_cons_ne {A} (x : A) xs d : xs <> [] -> List.last (x :: xs) d = List.last xs d.
Proof. by destruct xs. Qed.

Lemma parts_ne s : parts s <> [].
Proof. by destruct (parts_cons s) as (x & xs & ->). Qed.

Lemma last_parts_lstrip p :
  List.last (parts (lstrip_sep p)) [] = List.last (parts p) [].
Proof.
  induction p as [|c p IH]; [done|]. cbn [lstrip_sep].
  destruct (N.eqb_spec c SLASH) as [->|Hc]; [|done].
  cbn [parts]. change (SLASH =? SLASH) with true. cbv iota.
  by rewrite last_cons_ne by apply parts_ne.
Qed.

Lemma last_filter {A} (f : A -> bool) xs d :
  xs <> [] -> f (List.last xs d) = true ->
  List.filter f xs <> [] /\ List.last (List.filter f xs) d = List.last xs d.
Proof.
  induction xs as [|x xs IH]; [done|]. intros _.
  destruct xs as [|y xs].
  - cbn. intros ->. done.
  - rewrite last_cons_ne by done. intros Hl.
    destruct (IH ltac:(done) Hl) as [Hne Heq].
    change (List.filter f (x :: y :: xs))
      with (if f x then x :: List.filter f (y :: xs) else List.filter f (y :: xs)).
    destruct (f x); [|done]. split; [done|]. by rewrite last_cons_ne.
Qed.

Lemma names_directory_Path p :
  names_directory p = false -> names_directory (Path p) = false.
Proof.
  unfold names_directory. intros Hl%negb_false_iff.
  rewrite <- last_parts_lstrip, <- splitroot_snd in Hl.
  unfold Path, parse_parts.
  pose proof (splitroot_root p) as Hr.
  destruct (splitroot p) as [root rel]. cbn [fst snd] in *.
  pose proof (names_good rel) as Hg.
  destruct (last_filter is_name (parts rel) [] (parts_ne rel) Hl) as [Hne Hlast].
  set (ns := List.filter is_name (parts rel)) in *.
  assert (List.last (parts (root ++ join ns)) [] = List.last ns []) as Hp.
  { destruct Hg as [Hs _]. pose proof (parts_join ns Hne Hs) as Hj.
    destruct Hr as [->|[->| ->]]; cbn [app parts];
      change (SLASH =? SLASH) with true; cbv iota; rewrite Hj;
      rewrite ?last_cons_ne by done; done. }
  destruct (root ++ join ns) as [|c s] eqn:Hs.
  - apply app_eq_nil in Hs as [_ Hj]. by apply join_nil in Hj.
  - rewrite Hp, Hlast, Hl. done.
Qed.

Lemma Path_nonempty p : Path p <> [].
Proof.
  unfold Path. destruct (parse_parts p) as [root ns].
  by destruct (root ++ join ns).
Qed.

Lemma resolve_nonempty fs path :
  path <> [] ->
  resolve fs path
  = if too_long path
    then Refused (OSError (U "[Errno 36] File name too long: '" ++ path
                           ++ U "'"))
    else match fs !! os_key path with
         | Some Directory => Found Directory
         | Some n =>
             if names_directory path then Refused (NotADirectoryError path)
             else Found n
         | None => Vacant
         end.
Proof. by destruct path. Qed.

(** What a path leads to, its normal form leads to as well. *)
Lemma resolve_Path fs p n : resolve fs p = Found n -> resolve fs (Path p) = Found n.
Proof.
  intros Hr. assert (p <> []) as Hne by (by intros ->).
  rewrite resolve_nonempty in * by (done || apply Path_nonempty).
  destruct (too_long p) eqn:Hlong; [done|].
  rewrite (too_long_Path p Hne Hlong), os_key_Path.
  destruct (fs !! os_key p) as [[content| |]|]; try done.
  - destruct (names_directory p) eqn:Hd; [done|].
    by rewrite names_directory_Path.
  - destruct (names_directory p) eqn:Hd; [done|].
    by rewrite names_directory_Path.
Qed.

Lemma os_lookup_Path fs p n : os_lookup fs p = Some n -> os_lookup fs (Path p) = Some n.
Proof.
  unfold os_lookup. destruct (resolve fs p) as [m| |] eqn:Hr; try done.
  intros [= ->]. by rewrite (resolve_Path fs p n).
Qed.

Lemma plain_inv path :
  plain path = true ->
  path <> [] /\ too_long path = false /\ os_key path = path
  /\ names_directory path = false.
Proof.
  unfold plain. intros [[[H1 H2]%andb_prop H3]%andb_prop H4]%andb_prop.
  apply negb_true_iff in H1, H2, H4.
  apply bool_decide_eq_false in H1. by apply bool_decide_eq_true in H3.
Qed.

Lemma resolve_plain fs path :
  plain path = true ->
  resolve fs path = match fs !! path with Some n => Found n | None => Vacant end.
Proof.
  intros (Hne & Hlong & Hkey & Hdir)%plain_inv. unfold resolve.
  rewrite Hlong, Hkey, Hdir. destruct path; [done|].
  by destruct (fs !! _) as [[]|].
Qed.

Lemma os_lookup_plain fs path : plain path = true -> os_lookup fs path = fs !! path.
Proof.
  intros Hp. unfold os_lookup. rewrite resolve_plain by done.
  by destruct (fs !! path).
Qed.

Lemma SOCKET_PATH_plain : plain SOCKET_PATH = true.
Proof. vm_compute. reflexivity. Qed.

Lemma PID_FILE_plain : plain PID_FILE = true.
Proof. vm_compute. reflexivity. Qed.

(** Removing a file takes nothing else away, and makes no file appear. *)
Lemma os_lookup_delete fs key path :
  os_lookup (delete key fs) path
  = if bool_decide (os_key path = key) then None else os_lookup fs path.
Proof.
  unfold os_lookup, resolve. destruct path as [|c path]; [by case_bool_decide|].
  destruct (too_long (c :: path)); [by case_bool_decide|].
  case_bool_decide as Hk.
  - subst key. by rewrite lookup_delete_eq.
  - by rewrite lookup_delete_ne.
Qed.

Lemma os_lookup_insert_ne fs key path x :
  key <> os_key path ->
  os_lookup (<[key := x]> fs) path = os_lookup fs path.
Proof.
  intros Hne. unfold os_lookup, resolve. by rewrite lookup_insert_ne.
Qed.

(** The error for a missing file is an [OSError], hence an
    [Exception]. *)
Lemma os_error_is_OSError fs path : is_OSError (os_error fs path) = true.
Proof.
  unfold os_error, resolve. destruct path as [|c path]; [done|].
  destruct (too_long (c :: path)); [done|].
  destruct (fs !! os_key (c :: path)) as [[]|]; try done.
  all: by destruct (names_directory (c :: path)).
Qed.

Lemma os_error_is_Exception fs path : is_Exception (os_error fs path) = true.
Proof.
  pose proof (os_error_is_OSError fs path). by destruct (os_error fs path).
Qed.

Arguments os_lookup : simpl never.
Arguments resolve : simpl never.
Arguments os_key : simpl never.
Arguments os_error : simpl never.

Lemma try_unlink_run path st :
  try_except (os_unlink path) is_OSError (fun _ => mret tt) st
  = (Return tt, after st (unlinked path (files st)) [EUnlink path]).
Proof.
  unfold try_except, os_unlink, unlinked, after, mbind, M_bind, emit,
    get_files, set_files, raise, mret, M_ret. simpl.
  destruct (os_lookup (files st) path) as [[]|]; done.
Qed.

Lemma cleanup_run st :
  cleanup st
  = (Return tt,
     after st (unlinked PID_FILE (unlinked SOCKET_PATH (files st)))
       [EUnlink SOCKET_PATH; EUnlink PID_FILE]).
Proof.
  unfold cleanup, mbind, M_bind. rewrite try_unlink_run, try_unlink_run.
  unfold after. simpl. by rewrite <- app_assoc.
Qed.

Lemma artifact_at_unlinked fs path :
  plain path = true -> artifact_at (unlinked path fs) path = false.
Proof.
  intros (_ & _ & Hkey & _)%plain_inv. unfold artifact_at, unlinked.
  destruct (os_lookup fs path) as [[]|] eqn:H; rewrite ?H; try done.
  all: by rewrite os_lookup_delete, bool_decide_eq_true_2.
Qed.

Lemma artifact_at_unlinked_other fs path path' :
  artifact_at fs path = false -> artifact_at (unlinked path' fs) path = false.
Proof.
  unfold artifact_at, unlinked. intros H.
  destruct (os_lookup fs path') as [[]|] eqn:H'; try done.
  all: rewrite os_lookup_delete; by case_bool_decide.
Qed.

Lemma unlinked_absent fs path : artifact_at fs path = false -> unlinked path fs = fs.
Proof.
  unfold artifact_at, unlinked. by destruct (os_lookup fs path) as [[]|].
Qed.

(** C4: [cleanup] returns normally from every state; afterwards neither
    the socket nor the PID file is there; on a state where both are
    already absent it changes nothing in the file system, and so does a
    second call right after a first. *)
Theorem cleanup_idempotent st :
  exists st',
    cleanup st = (Return tt, st')
    /\ artifact_at (files st') SOCKET_PATH = false
    /\ artifact_at (files st') PID_FILE = false
    /\ (artifact_at (files st) SOCKET_PATH = false ->
        artifact_at (files st) PID_FILE = false ->
        files st' = files st)
    /\ exists st'',
         cleanup st' = (Return tt, st'') /\ files st'' = files st'.
Proof.
  eexists. split; [apply cleanup_run|]. simpl.
  assert (artifact_at (unlinked PID_FILE (unlinked SOCKET_PATH (files st)))
            SOCKET_PATH = false) as Hsock
    by apply artifact_at_unlinked_other, artifact_at_unlinked,
         SOCKET_PATH_plain.
  assert (artifact_at (unlinked PID_FILE (unlinked SOCKET_PATH (files st)))
            PID_FILE = false) as Hpid
    by apply artifact_at_unlinked, PID_FILE_plain.
  split; [done|]. split; [done|]. split.
  - intros H1 H2. by rewrite (unlinked_absent _ SOCKET_PATH), unlinked_absent.
  - eexists. split; [apply cleanup_run|]. simpl.
    by rewrite (unlinked_absent _ SOCKET_PATH), unlinked_absent.
Qed.

(** ** The UTF-8 codec *)

Ltac Zify.zify_post_hook ::= Z.to_euclidean_division_equations.

Lemma byte_of_N_to_N n : n < 256 -> Byte.to_N (byte_of_N n) = n.
Proof.
  intros Hn. unfold byte_of_N.
  destruct (Byte.of_N n) as [b|] eqn:Hb.
  - by apply Byte.to_of_N in Hb.
  - apply Byte.of_N_None_iff in Hb. lia.
Qed.

Ltac arith_test :=
  unfold is_continuation;
  rewrite ?andb_true_iff, ?andb_false_iff,
    ?N.leb_le, ?N.leb_gt, ?N.ltb_lt, ?N.ltb_ge;
  repeat match goal with
         | |- context [?a =? ?b] => destruct (N.eqb_spec a b)
         end;
  lia.

Ltac decide_test :=
  match goal with
  | |- (if ?b then _ else _) = _ =>
      first [ replace b with true by (symmetry; arith_test)
            | replace b with false by (symmetry; arith_test) ]
  end.

(** The decoder reads back one encoded code point. *)
Lemma utf8_decode_N_char c bs rest :
  utf8_encode_char c = Some bs ->
  utf8_decode_N (bs ++ rest) = cons c <$> utf8_decode_N rest.
Proof.
  unfold utf8_encode_char.
  destruct (N.ltb_spec c 0x80); [intros [= <-]|].
  { cbn [app utf8_decode_N]. by decide_test. }
  destruct (N.ltb_spec c 0x800); [intros [= <-]|].
  { cbn [app utf8_decode_N]. repeat decide_test. do 2 f_equal. lia. }
  destruct (N.ltb_spec c 0x10000).
  { destruct (N.leb_spec 0xD800 c); destruct (N.leb_spec c 0xDFFF); cbn [andb];
      try discriminate; intros [= <-];
      cbn [app utf8_decode_N]; repeat decide_test; do 2 f_equal; lia. }
  destruct (N.ltb_spec c 0x110000); [intros [= <-]|discriminate].
  cbn [app utf8_decode_N]. repeat decide_test. do 2 f_equal. lia.
Qed.

Lemma utf8_encode_char_bytes c bs :
  utf8_encode_char c = Some bs -> Forall (fun b => b < 256) bs.
Proof.
  unfold utf8_encode_char.
  repeat match goal with
         | |- context [?a <? ?b] => destruct (N.ltb_spec a b)
         | |- context [?a <=? ?b] => destruct (N.leb_spec a b)
         end; cbn [andb]; try discriminate; intros [= <-];
    repeat constructor; lia.
Qed.

Lemma utf8_encode_char_none c :
  utf8_encode_char c = None ->
  0xD800 <= c <= 0xDFFF \/ 0x110000 <= c.
Proof.
  unfold utf8_encode_char.
  repeat match goal with
         | |- context [?a <? ?b] => destruct (N.ltb_spec a b)
         | |- context [?a <=? ?b] => destruct (N.leb_spec a b)
         end; cbn [andb]; try discriminate; intros _; lia.
Qed.

Lemma map_to_N_byte_of_N bs :
  Forall (fun b => b < 256) bs -> map Byte.to_N (map byte_of_N bs) = bs.
Proof.
  induction 1 as [|b bs Hb _ IH]; [done|].
  cbn [map]. by rewrite byte_of_N_to_N, IH.
Qed.

(** X18: the codec of the requests and replies: a text that encodes
    decodes back to itself, and the only texts that do not encode are
    those with a surrogate or a value above U+10FFFF. *)
Theorem utf8_round_trip s :
  match utf8_encode s with
  | Some data => utf8_decode data = Some s
  | None => exists c, In c s /\ (0xD800 <= c <= 0xDFFF \/ 0x110000 <= c)
  end.
Proof.
  induction s as [|c s IH].
  - reflexivity.
  - change (utf8_encode (c :: s))
      with (match utf8_encode_char c, utf8_encode s with
            | Some cb, Some rb => Some (map byte_of_N cb ++ rb)
            | _, _ => None
            end).
    destruct (utf8_encode_char c) as [cb|] eqn:Hc.
    + destruct (utf8_encode s) as [rb|].
      * unfold utf8_decode in *.
        rewrite map_app, map_to_N_byte_of_N
          by (by eapply utf8_encode_char_bytes).
        by rewrite (utf8_decode_N_char c cb), IH.
      * destruct IH as (c' & Hin & Hc'). exists c'. split; [by right|done].
    + exists c. split; [by left|]. by apply utf8_encode_char_none.
Qed.

(** A text of scalar values encodes, and the encoding decodes back to it;
    any other text does not encode. *)
Lemma utf8_decode_encode s data :
  utf8_encode s = Some data -> utf8_decode data = Some s.
Proof.
  revert data. induction s as [|c s IH]; intros data.
  - by intros [= <-].
  - change (utf8_encode (c :: s))
      with (match utf8_encode_char c, utf8_encode s with
            | Some cb, Some rb => Some (map byte_of_N cb ++ rb)
            | _, _ => None
            end).
    destruct (utf8_encode_char c) as [cb|] eqn:Hc; [|done].
    destruct (utf8_encode s) as [rb|]; [|done]. intros [= <-].
    unfold utf8_decode in *.
    rewrite map_app, map_to_N_byte_of_N by (by eapply utf8_encode_char_bytes).
    by rewrite (utf8_decode_N_char c cb), (IH rb).
Qed.

Lemma utf8_encode_char_scalar c :
  utf8_encode_char c = None <-> is_scalar_value c = false.
Proof.
  unfold utf8_encode_char, is_scalar_value.
  repeat match goal with
         | |- context [?a <? ?b] => destruct (N.ltb_spec a b)
         | |- context [?a <=? ?b] => destruct (N.leb_spec a b)
         end; cbn [andb orb]; split; try done; lia.
Qed.

Lemma utf8_encode_scalar s :
  if forallb is_scalar_value s
  then exists data, utf8_encode s = Some data /\ utf8_decode data = Some s
  else utf8_encode s = None.
Proof.
  destruct (utf8_encode s) as [data|] eqn:Henc.
  - assert (forallb is_scalar_value s = true) as ->; [|by eauto using utf8_decode_encode].
    clear -Henc. revert data Henc. induction s as [|c s IH]; intros data; [done|].
    change (utf8_encode (c :: s))
      with (match utf8_encode_char c, utf8_encode s with
            | Some cb, Some rb => Some (map byte_of_N cb ++ rb)
            | _, _ => None
            end).
    destruct (utf8_encode_char c) as [cb|] eqn:Hc; [|done].
    destruct (utf8_encode s) as [rb|]; [|done]. intros _.
    cbn [forallb]. rewrite (IH rb) by done.
    destruct (is_scalar_value c) eqn:Hs; [done|].
    apply utf8_encode_char_scalar in Hs. congruence.
  - assert (forallb is_scalar_value s = false) as ->; [|done].
    clear -Henc. induction s as [|c s IH]; [done|].
    change (utf8_encode (c :: s))
      with (match utf8_encode_char c, utf8_encode s with
            | Some cb, Some rb => Some (map byte_of_N cb ++ rb)
            | _, _ => None
            end) in Henc.
    cbn [forallb]. destruct (utf8_encode_char c) as [cb|] eqn:Hc.
    + destruct (utf8_encode s) as [rb|]; [done|].
      rewrite IH by done. apply andb_false_r.
    + apply utf8_encode_char_scalar in Hc. by rewrite Hc.
Qed.

Ltac Zify.zify_post_hook ::= idtac.

(** ** One connection *)

Arguments received : simpl never.
Arguments U : simpl never.
Arguments B : simpl never.
Arguments Path : simpl never.
Arguments str_strip : simpl never.
Arguments utf8_decode : simpl never.
Arguments utf8_encode : simpl never.
Arguments format_latex : simpl never.

Lemma bind_run {A B} (m : M A) (f : A -> M B) st :
  (m ≫= f) st
  = match m st with
    | (Return a, st') => f a st'
    | (Raise e, st') => (Raise e, st')
    | (Blocked, st') => (Blocked, st')
    | (Killed, st') => (Killed, st')
    end.
Proof. done. Qed.

Lemma emit_run ev st : emit ev st = (Return tt, after st (files st) [ev]).
Proof. done. Qed.

Lemma print_run f line st :
  print f line st = (Return tt, after st (files st) [EPrint f line]).
Proof. done. Qed.

Lemma close_run c st :
  close c st = (Return tt, after st (files st) [EClose (conn_id c)]).
Proof. done. Qed.

Lemma mret_run {A} (a : A) st : (mret a : M A) st = (Return a, st).
Proof. done. Qed.

Lemma raise_run {A} e st : @raise A e st = (Raise e, st).
Proof. done. Qed.

Lemma after_after st fs evs fs' evs' :
  after (after st fs evs) fs' evs' = after st fs' (evs ++ evs').
Proof. unfold after. simpl. by rewrite <- app_assoc. Qed.

Ltac run :=
  repeat first
    [ rewrite bind_run | rewrite emit_run | rewrite print_run
    | rewrite close_run | rewrite mret_run | rewrite raise_run
    | rewrite after_after
    | progress cbn [files trace sends after fst snd] ].

Lemma sendall_run c data st :
  sendall c data st
  = (if send_ok st then Return tt
     else Raise (OSError (default [] (mjoin (head (sends st))))),
     State (files st) (trace st ++ [ESendall (conn_id c) data (send_ok st)])
       (tail (sends st))).
Proof.
  unfold sendall, send_ok. by destruct (sends st) as [|[?|] ?].
Qed.

Lemma utf8_encode_app a b :
  utf8_encode (a ++ b)
  = match utf8_encode a, utf8_encode b with
    | Some x, Some y => Some (x ++ y)
    | _, _ => None
    end.
Proof.
  induction a as [|c a IH]; simpl.
  - change (utf8_encode []) with (Some (@nil byte)).
    by destruct (utf8_encode b).
  - change (utf8_encode (c :: a ++ b))
      with (match utf8_encode_char c, utf8_encode (a ++ b) with
            | Some cb, Some rb => Some (map byte_of_N cb ++ rb)
            | _, _ => None
            end).
    change (utf8_encode (c :: a))
      with (match utf8_encode_char c, utf8_encode a with
            | Some cb, Some rb => Some (map byte_of_N cb ++ rb)
            | _, _ => None
            end).
    rewrite IH.
    destruct (utf8_encode_char c), (utf8_encode a), (utf8_encode b);
      try done.
    by rewrite app_assoc.
Qed.

(** The encoded error message begins with the marker. *)
Lemma utf8_encode_error_marker s data :
  utf8_encode (U "ERROR: " ++ s) = Some data ->
  exists data', data = B "ERROR: " ++ data'.
Proof.
  rewrite utf8_encode_app.
  change (utf8_encode (U "ERROR: ")) with (Some (B "ERROR: ")).
  destruct (utf8_encode s) as [data'|]; [|done].
  intros [= <-]. eauto.
Qed.

Section DaemonProperties.

Variable unicode_isalnum : char -> bool.
Variable str_exn : exn -> str.
Variable E : env.

Lemma accept_loop_connect c rest st0 :
  accept_loop unicode_isalnum str_exn E (Connect c :: rest) st0
  = match handle_connection unicode_isalnum str_exn E c (accept c st0).2 with
    | (Return _, st') => accept_loop unicode_isalnum str_exn E rest st'
    | (Raise e, st') => (Raise e, st')
    | (Blocked, st') => (Blocked, st')
    | (Killed, st') => (Killed, st')
    end.
Proof. done. Qed.

(** C3: on an empty payload the daemon sends nothing, calls neither the
    image loader nor the model, closes the connection, and goes on to
    the next arrival. *)
Theorem handle_connection_empty_payload c st :
  recv_error c = None ->
  received c 4096 = [] ->
  let st' := after st (files st) [ERecv (conn_id c) 4096; EClose (conn_id c)] in
  handle_connection unicode_isalnum str_exn E c st = (Return tt, st')
  /\ (forall st0 rest,
        (accept c st0).2 = st ->
        accept_loop unicode_isalnum str_exn E (Connect c :: rest) st0
        = accept_loop unicode_isalnum str_exn E rest st').
Proof.
  intros Hrecv Hdata st'.
  assert (handle_connection unicode_isalnum str_exn E c st = (Return tt, st'))
    as Hrun.
  { unfold handle_connection, try_finally, try_except, handle_request, recv.
    rewrite !bind_run. simpl. rewrite Hrecv. simpl. rewrite Hdata. simpl.
    unfold st', after. by rewrite <- app_assoc. }
  split; [done|]. intros st0 rest Hst.
  by rewrite accept_loop_connect, Hst, Hrun.
Qed.

Lemma report_error_run c e st :
  let error_msg := U "ERROR: " ++ str_exn e in
  report_error str_exn c e st
  = (Return tt,
     match utf8_encode error_msg with
     | Some data =>
         State (files st)
           (trace st
            ++ [EPrint stderr error_msg; ESendall (conn_id c) data (send_ok st)])
           (tail (sends st))
     | None => after st (files st) [EPrint stderr error_msg]
     end).
Proof.
  intros error_msg. unfold report_error, try_except, encode. fold error_msg.
  run. destruct (utf8_encode error_msg) as [data|]; run; [|done].
  rewrite sendall_run. unfold after. cbn [files trace sends].
  rewrite <- app_assoc. by destruct (send_ok _).
Qed.

(** The handler on a request whose processing raises an [Exception]. *)
Lemma handle_connection_caught c st e st1 :
  handle_request unicode_isalnum E c st = (Raise e, st1) ->
  is_Exception e = true ->
  let error_msg := U "ERROR: " ++ str_exn e in
  handle_connection unicode_isalnum str_exn E c st
  = (Return tt,
     match utf8_encode error_msg with
     | Some data =>
         State (files st1)
           (trace st1
            ++ [EPrint stderr error_msg;
                ESendall (conn_id c) data (send_ok st1);
                EClose (conn_id c)])
           (tail (sends st1))
     | None =>
         after st1 (files st1) [EPrint stderr error_msg; EClose (conn_id c)]
     end).
Proof.
  intros Hraise Hexc error_msg.
  unfold handle_connection, try_finally, try_except.
  rewrite Hraise, Hexc, report_error_run. fold error_msg.
  destruct (utf8_encode error_msg) as [data|]; run; [|done].
  unfold after. cbn [files trace sends]. by rewrite <- app_assoc.
Qed.

(** The handler on a request whose processing raises something that is
    not an [Exception]: the connection is closed and the exception goes
    on. *)
Lemma handle_connection_uncaught c st e st1 :
  handle_request unicode_isalnum E c st = (Raise e, st1) ->
  is_Exception e = false ->
  handle_connection unicode_isalnum str_exn E c st
  = (Raise e, after st1 (files st1) [EClose (conn_id c)]).
Proof.
  intros Hraise Hexc. unfold handle_connection, try_finally, try_except.
  rewrite Hraise, Hexc. by run.
Qed.

(** C1, as amended: when the processing of a request raises an
    [Exception], the handler logs [ERROR: ] and the text of the
    exception, tries to send the client that message, closes the
    connection and returns normally, and the accept loop goes on to the
    next arrival.  The message is sent exactly when the text of the
    exception is made of scalar values: then its UTF-8 form follows the
    bytes of [ERROR: ]; otherwise the encoding fails and nothing is sent.
    What is not an [Exception] is not caught: the connection is closed
    and the exception ends the loop. *)
Theorem handle_connection_reports_exception c st e st1 :
  handle_request unicode_isalnum E c st = (Raise e, st1) ->
  let error_msg := U "ERROR: " ++ str_exn e in
  if is_Exception e then
    exists notify st',
      handle_connection unicode_isalnum str_exn E c st = (Return tt, st')
      /\ files st' = files st1
      /\ trace st'
         = trace st1 ++ [EPrint stderr error_msg] ++ notify
           ++ [EClose (conn_id c)]
      /\ (if forallb is_scalar_value (str_exn e)
          then exists text,
                 utf8_encode (str_exn e) = Some text
                 /\ utf8_decode text = Some (str_exn e)
                 /\ notify = [ESendall (conn_id c) (B "ERROR: " ++ text)
                                (send_ok st1)]
          else notify = [])
      /\ (forall st0 rest,
            (accept c st0).2 = st ->
            accept_loop unicode_isalnum str_exn E (Connect c :: rest) st0
            = accept_loop unicode_isalnum str_exn E rest st')
  else
    handle_connection unicode_isalnum str_exn E c st
    = (Raise e, after st1 (files st1) [EClose (conn_id c)])
    /\ (forall st0 rest,
          (accept c st0).2 = st ->
          accept_loop unicode_isalnum str_exn E (Connect c :: rest) st0
          = (Raise e, after st1 (files st1) [EClose (conn_id c)])).
Proof.
  intros Hraise error_msg. destruct (is_Exception e) eqn:Hexc.
  - pose proof (handle_connection_caught c st e st1 Hraise Hexc) as Hrun.
    cbv zeta in Hrun. fold error_msg in Hrun.
    pose proof (utf8_encode_scalar (str_exn e)) as Hcodec.
    unfold error_msg in Hrun. rewrite utf8_encode_app in Hrun.
    change (utf8_encode (U "ERROR: ")) with (Some (B "ERROR: ")) in Hrun.
    destruct (forallb is_scalar_value (str_exn e)).
    + destruct Hcodec as (text & Henc & Hdec). rewrite Henc in Hrun.
      exists [ESendall (conn_id c) (B "ERROR: " ++ text) (send_ok st1)].
      eexists. split; [exact Hrun|]. cbn [files trace sends].
      split; [done|]. split; [done|]. split; [by exists text|].
      intros st0 rest Hst. by rewrite accept_loop_connect, Hst, Hrun.
    + rewrite Hcodec in Hrun. exists []. eexists. split; [exact Hrun|].
      cbn [files trace sends after]. split; [done|]. split; [done|].
      split; [done|].
      intros st0 rest Hst. by rewrite accept_loop_connect, Hst, Hrun.
  - pose proof (handle_connection_uncaught c st e st1 Hraise Hexc) as Hrun.
    split; [done|].
    intros st0 rest Hst. by rewrite accept_loop_connect, Hst, Hrun.
Qed.

Lemma lstrip_all_space s : forallb isspace s = true -> lstrip s = [].
Proof.
  induction s as [|ch s IH]; simpl; [done|].
  intros [-> Hs]%andb_prop. by apply IH.
Qed.

Lemma str_strip_all_space s : forallb isspace s = true -> str_strip s = [].
Proof. intros Hs. unfold str_strip. by rewrite lstrip_all_space. Qed.

(** The existence test: the file is found, the path is too long for the
    operating system, or the answer is no. *)
Lemma Path_exists_run p st :
  Path_exists p st
  = match os_lookup (files st) (Path p) with
    | Some _ => (Return true, st)
    | None =>
        if too_long (Path p)
        then (Raise (OSError (U "[Errno 36] File name too long: '" ++ Path p
                              ++ U "'")), st)
        else (Return false, st)
    end.
Proof.
  unfold Path_exists, get_files, os_lookup. run.
  rewrite resolve_nonempty by apply Path_nonempty.
  destruct (too_long (Path p)); [done|].
  destruct (files st !! os_key (Path p)) as [[]|]; try done.
  all: by destruct (names_directory (Path p)).
Qed.

(** The request up to the existence test, for a payload that decodes. *)
Lemma handle_request_decoded c st s :
  recv_error c = None ->
  received c 4096 <> [] ->
  utf8_decode (received c 4096) = Some s ->
  handle_request unicode_isalnum E c st
  = let st1 := after st (files st) [ERecv (conn_id c) 4096] in
    match os_lookup (files st) (Path (str_strip s)) with
    | Some _ =>
        (latex ← inference unicode_isalnum E (str_strip s);
         reply ← encode latex; sendall c reply) st1
    | None =>
        if too_long (Path (str_strip s))
        then (Raise (OSError (U "[Errno 36] File name too long: '"
                              ++ Path (str_strip s) ++ U "'")), st1)
        else sendall c (B "ERROR: Image not found") st1
    end.
Proof.
  intros Hrecv Hdata Hdec. unfold handle_request, recv. run.
  rewrite Hrecv. run. destruct (received c 4096) as [|b0 data] eqn:Hd; [done|].
  unfold decode. rewrite Hdec. run. rewrite Path_exists_run.
  cbn [files after].
  destruct (os_lookup (files st) (Path (str_strip s))); [done|].
  by destruct (too_long (Path (str_strip s))).
Qed.

(** The three places where the processing of a request raises: the
    decoding of the payload, the loading of the image, the model. *)
Lemma handle_request_raises c st :
  recv_error c = None ->
  received c 4096 <> [] ->
  (utf8_decode (received c 4096) = None ->
   handle_request unicode_isalnum E c st
   = (Raise UnicodeDecodeError, after st (files st) [ERecv (conn_id c) 4096]))
  /\ (forall s,
        utf8_decode (received c 4096) = Some s ->
        str_strip s <> [] ->
        (os_lookup (files st) (str_strip s) = Some Directory ->
         handle_request unicode_isalnum E c st
         = (Raise (OSError (U "[Errno 21] Is a directory")),
            after st (files st)
              [ERecv (conn_id c) 4096; EImageOpen (str_strip s)]))
        /\ (forall content e,
              os_lookup (files st) (str_strip s) = Some (RegularFile content) ->
              generate E (str_strip s) = inl e ->
              handle_request unicode_isalnum E c st
              = (Raise e,
                 after st (files st)
                   [ERecv (conn_id c) 4096; EImageOpen (str_strip s);
                    EGenerate (str_strip s)]))).
Proof.
  intros Hrecv Hdata. split.
  - intros Hdec. unfold handle_request, recv. run. rewrite Hrecv. run.
    destruct (received c 4096) as [|b0 data] eqn:Hd; [done|].
    unfold decode. rewrite Hdec. by run.
  - intros s Hdec Hpath.
    pose proof (handle_request_decoded c st s Hrecv Hdata Hdec) as Hreq.
    cbv zeta in Hreq. split.
    + intros Hdir. rewrite Hreq, (os_lookup_Path _ _ _ Hdir).
      unfold inference, get_files. run. rewrite Hdir. by run.
    + intros content e Hfile Hgen. rewrite Hreq, (os_lookup_Path _ _ _ Hfile).
      unfold inference, get_files. run. rewrite Hfile. run.
      rewrite Hgen. by run.
Qed.

(** What the handler makes of a reply that the transport refuses. *)
Lemma handle_connection_sendall c st st1 data :
  handle_request unicode_isalnum E c st = sendall c data st1 ->
  exists more st',
    handle_connection unicode_isalnum str_exn E c st = (Return tt, st')
    /\ files st' = files st1
    /\ trace st'
       = trace st1 ++ [ESendall (conn_id c) data (send_ok st1)]
         ++ more ++ [EClose (conn_id c)]
    /\ (send_ok st1 = true -> more = [])
    /\ forallb (fun ev => negb (is_model_call ev)) more = true.
Proof.
  intros Hreq. unfold handle_connection, try_finally, try_except.
  rewrite Hreq, sendall_run. destruct (send_ok st1) eqn:Hok.
  - exists []. eexists. run. split; [done|].
    cbn [files trace sends after]. split; [done|].
    split; [by rewrite <- app_assoc|done].
  - cbn [is_Exception]. rewrite report_error_run. run.
    set (error_msg := U "ERROR: " ++ str_exn _).
    set (st2 := State _ _ _).
    destruct (utf8_encode error_msg) as [err|].
    + exists [EPrint stderr error_msg; ESendall (conn_id c) err (send_ok st2)].
      eexists. split; [reflexivity|]. cbn [files trace sends after].
      split; [reflexivity|].
      split; [subst st2; cbn [trace]; by rewrite <- ?app_assoc|].
      split; [discriminate|reflexivity].
    + exists [EPrint stderr error_msg].
      eexists. split; [reflexivity|]. run.
      split; [reflexivity|].
      split; [subst st2; cbn [trace]; by rewrite <- ?app_assoc|].
      split; [discriminate|reflexivity].
Qed.


(** The image loader on the empty path: the operating system resolves no
    file under it. *)
Lemma inference_empty_path st :
  inference unicode_isalnum E [] st
  = (Raise (FileNotFoundError []), after st (files st) [EImageOpen []]).
Proof. unfold inference, get_files. by run. Qed.

(** C10, as amended: a payload of whitespace only is not skipped.  Its
    path is the empty string, which stands for the current directory.
    When that directory exists the daemon goes on to load the image from
    the empty path, which fails, and the reply is [ERROR: ] with the text
    of that failure; the model is not called.  Only when the current
    directory does not exist is the reply the fixed not-found payload. *)
Theorem handle_connection_whitespace_payload c st s :
  recv_error c = None ->
  received c 4096 <> [] ->
  utf8_decode (received c 4096) = Some s ->
  forallb isspace s = true ->
  let error_msg := U "ERROR: " ++ str_exn (FileNotFoundError []) in
  str_strip s = [] /\ Path (str_strip s) = U "."
  /\ exists reply more st',
       handle_connection unicode_isalnum str_exn E c st = (Return tt, st')
       /\ files st' = files st
       /\ trace st'
          = trace st ++ [ERecv (conn_id c) 4096] ++ reply ++ more
            ++ [EClose (conn_id c)]
       /\ match os_lookup (files st) (U ".") with
          | Some _ =>
              reply = [EImageOpen []; EPrint stderr error_msg]
              /\ match utf8_encode error_msg with
                 | Some data => more = [ESendall (conn_id c) data (send_ok st)]
                 | None => more = []
                 end
          | None =>
              reply = [ESendall (conn_id c) (B "ERROR: Image not found")
                         (send_ok st)]
              /\ (send_ok st = true -> more = [])
              /\ forallb (fun ev => negb (is_model_call ev)) more = true
          end.
Proof.
  intros Hrecv Hdata Hdec Hspace error_msg.
  pose proof (str_strip_all_space s Hspace) as Hstrip.
  split; [done|]. split; [by rewrite Hstrip|].
  pose proof (handle_request_decoded c st s Hrecv Hdata Hdec) as Hreq.
  cbv zeta in Hreq. rewrite Hstrip in Hreq.
  change (Path []) with (U ".") in Hreq.
  change (too_long (U ".")) with false in Hreq.
  destruct (os_lookup (files st) (U ".")) as [cwd|] eqn:Hcwd.
  - rewrite bind_run, inference_empty_path in Hreq.
    pose proof (handle_connection_caught c st _ _ Hreq eq_refl) as Hrun.
    cbv zeta in Hrun. fold error_msg in Hrun.
    exists [EImageOpen []; EPrint stderr error_msg].
    destruct (utf8_encode error_msg) as [data|].
    + exists [ESendall (conn_id c) data (send_ok st)]. eexists.
      split; [exact Hrun|]. cbn [files trace sends after].
      split; [reflexivity|]. split; [by rewrite <- ?app_assoc|].
      split; reflexivity.
    + exists []. eexists.
      split; [exact Hrun|]. cbn [files trace sends after].
      split; [reflexivity|]. split; [by rewrite <- ?app_assoc|].
      split; reflexivity.
  - destruct (handle_connection_sendall c st _ _ Hreq)
      as (more & st' & Hrun & Hfiles & Htrace & Hmore & Hcalls).
    exists [ESendall (conn_id c) (B "ERROR: Image not found") (send_ok st)],
      more, st'.
    split; [done|]. split; [done|].
    split; [by rewrite Htrace; cbn [trace after]; rewrite <- !app_assoc|].
    done.
Qed.

End DaemonProperties.

(** ** Standard output *)

Lemma quiet_app evs evs' : quiet (evs ++ evs') = quiet evs && quiet evs'.
Proof. apply forallb_app. Qed.

Lemma silent_ret {A} (a : A) : silent (mret a : M A).
Proof. intros st. exists []. by rewrite app_nil_r. Qed.

Lemma silent_raise {A} e : silent (@raise A e).
Proof. intros st. exists []. by rewrite app_nil_r. Qed.

Lemma silent_block {A} : silent (@block A).
Proof. intros st. exists []. by rewrite app_nil_r. Qed.

Lemma silent_kill {A} : silent (@kill A).
Proof. intros st. exists []. by rewrite app_nil_r. Qed.

Lemma silent_emit ev : is_stdout ev = false -> silent (emit ev).
Proof. intros Hev st. exists [ev]. simpl. by rewrite Hev. Qed.

Lemma silent_get_files : silent get_files.
Proof. intros st. exists []. by rewrite app_nil_r. Qed.

Lemma silent_set_files fs : silent (set_files fs).
Proof. intros st. exists []. simpl. by rewrite app_nil_r. Qed.

Lemma silent_bind {A B} (m : M A) (f : A -> M B) :
  silent m -> (forall a, silent (f a)) -> silent (m ≫= f).
Proof.
  intros Hm Hf st. rewrite bind_run.
  destruct (Hm st) as (evs & Htr & Hq).
  destruct (m st) as [[a|e| |] st1]; simpl in *; [|by eauto..].
  destruct (Hf a st1) as (evs' & Htr' & Hq').
  exists (evs ++ evs'). rewrite Htr', Htr, quiet_app, Hq, Hq'.
  by rewrite app_assoc.
Qed.

Lemma silent_try_except {A} (body : M A) catches handler :
  silent body -> (forall e, silent (handler e)) ->
  silent (try_except body catches handler).
Proof.
  intros Hm Hh st. unfold try_except.
  destruct (Hm st) as (evs & Htr & Hq).
  destruct (body st) as [[a|e| |] st1]; simpl in *; [by eauto| |by eauto..].
  destruct (catches e); [|by eauto].
  destruct (Hh e st1) as (evs' & Htr' & Hq').
  exists (evs ++ evs'). rewrite Htr', Htr, quiet_app, Hq, Hq'.
  by rewrite app_assoc.
Qed.

Lemma silent_try_finally {A} (body : M A) final :
  silent body -> silent final -> silent (try_finally body final).
Proof.
  intros Hm Hf st. unfold try_finally.
  destruct (Hm st) as (evs & Htr & Hq).
  destruct (Hf (body st).2) as (evs' & Htr' & Hq').
  assert (trace (final (body st).2).2 = trace st ++ evs ++ evs'
          /\ quiet (evs ++ evs') = true) as [Hall Hqall].
  { rewrite Htr', Htr, quiet_app, Hq, Hq'. by rewrite app_assoc. }
  destruct (body st) as [[a|e| |] st1]; simpl in *; [| |by eauto..].
  all: destruct (final st1) as [[[]|e'| |] st2]; simpl in *; eauto.
Qed.

Lemma silent_outcome_of o : silent (outcome_of o).
Proof. destruct o; [apply silent_raise | apply silent_ret]. Qed.

Lemma silent_sendall c data : silent (sendall c data).
Proof.
  intros st. rewrite sendall_run. simpl. eexists. split; [done|done].
Qed.

Lemma silent_accept c : silent (accept c).
Proof. intros st. simpl. eexists. split; [done|done]. Qed.

Lemma silent_cleanup : silent cleanup.
Proof. intros st. rewrite cleanup_run. simpl. eexists. split; done. Qed.

Create HintDb silent.

#[local] Hint Resolve silent_ret silent_raise silent_block silent_kill
  silent_get_files
  silent_set_files silent_outcome_of silent_sendall silent_accept
  silent_cleanup : silent.

Ltac silent :=
  repeat first
    [ apply silent_bind; [|intros ?]
    | apply silent_try_except; [|intros ?]
    | apply silent_try_finally
    | apply silent_emit; reflexivity
    | solve [auto with silent]
    | match goal with |- silent (match ?x with _ => _ end) => destruct x end
    | match goal with |- silent (if ?x then _ else _) => destruct x end ].

Lemma silent_os_unlink path : silent (os_unlink path).
Proof. unfold os_unlink. silent. Qed.

Lemma silent_write_file path content : silent (write_file path content).
Proof. unfold write_file. silent. Qed.

Lemma silent_socket_bind path : silent (socket_bind path).
Proof. unfold socket_bind. silent. Qed.

Lemma silent_recv c n : silent (recv c n).
Proof. unfold recv. silent. Qed.

Lemma silent_close c : silent (close c).
Proof. unfold close. silent. Qed.

Section Run.

Variable unicode_isalnum : char -> bool.
Variable str_exn : exn -> str.
Variable E : env.

Lemma silent_inference path : silent (inference unicode_isalnum E path).
Proof. unfold inference. silent. Qed.

Lemma silent_handle_connection c :
  silent (handle_connection unicode_isalnum str_exn E c).
Proof.
  unfold handle_connection, handle_request, report_error, encode, decode,
    Path_exists, print.
  pose proof silent_inference. pose proof silent_recv.
  pose proof silent_close. silent.
Qed.

Lemma silent_signal_handler signum : silent (signal_handler signum).
Proof. unfold signal_handler, print. silent. Qed.

Lemma silent_accept_loop arrivals :
  silent (accept_loop unicode_isalnum str_exn E arrivals).
Proof.
  induction arrivals as [|[c|signum] arrivals IH]; cbn [accept_loop].
  - apply silent_block.
  - apply silent_bind; [apply silent_accept|intros _].
    apply silent_bind; [apply silent_handle_connection|intros _].
    exact IH.
  - destruct (handled signum); [apply silent_signal_handler|apply silent_kill].
Qed.

Lemma write_file_run path content st :
  plain path = true ->
  write_file path content st
  = match os_lookup (files st) path with
    | Some Directory =>
        (Raise (OSError (U "[Errno 21] Is a directory")),
         after st (files st) [EWrite path content])
    | Some SocketFile =>
        (Raise (OSError (U "[Errno 6] No such device or address")),
         after st (files st) [EWrite path content])
    | _ =>
        (Return tt,
         after st (<[path := RegularFile content]> (files st))
           [EWrite path content])
    end.
Proof.
  intros (Hne & _)%plain_inv. unfold write_file, get_files, set_files. run.
  destruct path as [|ch path]; [done|].
  destruct (os_lookup (files st) (ch :: path)) as [[]|]; run; try done.
  all: unfold after; cbn [files trace sends]; by rewrite ?app_nil_r.
Qed.

Lemma socket_bind_run path st :
  socket_bind path st
  = match os_lookup (files st) path with
    | Some _ =>
        (Raise (OSError (U "[Errno 98] Address already in use")),
         after st (files st) [EBind path])
    | None =>
        (Return tt, after st (<[path := SocketFile]> (files st)) [EBind path])
    end.
Proof.
  unfold socket_bind, get_files, set_files. run.
  destruct (os_lookup (files st) path); run; try done.
Qed.

Lemma os_lookup_unlinked fs path :
  plain path = true ->
  os_lookup (unlinked path fs) path
  = if is_directory fs path then Some Directory else None.
Proof.
  intros (_ & _ & Hkey & _)%plain_inv. unfold unlinked, is_directory.
  destruct (os_lookup fs path) as [[]|] eqn:H; rewrite ?H; try done.
  all: by rewrite os_lookup_delete, bool_decide_eq_true_2.
Qed.

Lemma os_lookup_unlinked_ne fs path path' :
  plain path' = true ->
  path <> path' ->
  os_lookup (unlinked path fs) path' = os_lookup fs path'.
Proof.
  intros (_ & _ & Hkey & _)%plain_inv Hne. unfold unlinked.
  destruct (os_lookup fs path) as [[]|]; try done.
  all: rewrite os_lookup_delete, bool_decide_eq_false_2; congruence.
Qed.

Lemma os_lookup_insert_plain_ne fs path path' x :
  plain path' = true ->
  path <> path' ->
  os_lookup (<[path := x]> fs) path' = os_lookup fs path'.
Proof.
  intros (_ & _ & Hkey & _)%plain_inv Hne.
  apply os_lookup_insert_ne. congruence.
Qed.

Lemma PID_FILE_SOCKET_PATH : PID_FILE <> SOCKET_PATH.
Proof. discriminate. Qed.

Lemma load_model_run st :
  exists evs,
    quiet evs = true /\ existsb is_accept evs = false
    /\ if bool_decide (load_outcome E = None) && nonfatal (compile_outcome E)
       then exists d, load_model str_exn E st
                      = (Return d, after st (files st) evs)
       else exists e, load_model str_exn E st
                      = (Raise e, after st (files st) evs).
Proof.
  unfold load_model, try_except, outcome_of, print. run.
  destruct (load_outcome E) as [e|]; run.
  { eexists. split; [|split; [|cbn [andb]; eexists; reflexivity]]; reflexivity. }
  rewrite bool_decide_eq_true_2 by done. cbn [andb].
  destruct (compile_outcome E) as [e|]; run.
  - cbn [nonfatal]. destruct (is_Exception e); run.
    + eexists. split; [|split; [|eexists; reflexivity]]; reflexivity.
    + eexists. split; [|split; [|eexists; reflexivity]]; reflexivity.
  - eexists. split; [|split; [|eexists; reflexivity]]; reflexivity.
Qed.

Lemma warm_up_run st :
  if nonfatal (warmup_outcome E)
  then exists wmsg,
         warm_up str_exn E st
         = (Return tt,
            after st (files st)
              [EPrint stderr (U "Warming up model..."); EWarmup;
               EPrint stderr wmsg])
  else exists e,
         warm_up str_exn E st
         = (Raise e,
            after st (files st)
              [EPrint stderr (U "Warming up model..."); EWarmup]).
Proof.
  unfold warm_up, try_except, outcome_of, print. run.
  destruct (warmup_outcome E) as [e|]; run.
  - cbn [nonfatal]. destruct (is_Exception e); run; eexists; reflexivity.
  - eexists. reflexivity.
Qed.

Lemma count_READY_quiet evs : quiet evs = true -> count_READY evs = 0%nat.
Proof.
  unfold count_READY, quiet. induction evs as [|ev evs IH]; [done|].
  intros [Hev Hevs]%andb_prop. rewrite filter_cons.
  destruct ev as [[]| | | | | | | | | | | | | | |]; try done; by apply IH.
Qed.

Lemma count_READY_app evs evs' :
  count_READY (evs ++ evs') = (count_READY evs + count_READY evs')%nat.
Proof. unfold count_READY. by rewrite filter_app, length_app. Qed.

(** Among events that are otherwise off standard output, the marker has
    one position. *)
Lemma READY_position before after' pre post :
  quiet before = true -> quiet after' = true ->
  before ++ READY :: after' = pre ++ READY :: post ->
  pre = before /\ post = after'.
Proof.
  revert pre. induction before as [|ev before IH]; intros pre Hb Ha Heq.
  - destruct pre as [|x pre]; simplify_eq/=; [done|].
    unfold quiet in Ha. rewrite forallb_app in Ha.
    by apply andb_prop in Ha as [_ Ha].
  - simpl in Hb. apply andb_prop in Hb as [Hev Hb].
    destruct pre as [|x pre]; simplify_eq/=.
    destruct (IH pre Hb Ha) as [-> ->]; done.
Qed.

(** The run of the daemon, split at the readiness marker. *)
Ltac trace_eq :=
  run; unfold after; cbn [trace]; rewrite <- ?app_assoc; reflexivity.

Lemma run_server_run arrivals st :
  exists o st' evs,
    run_server unicode_isalnum str_exn E arrivals st = (o, st')
    /\ trace st' = trace st ++ evs
    /\ if starts E (files st)
       then exists pre wmsg post,
              evs = pre
                    ++ [EWarmup; EPrint stderr wmsg; ESocket;
                        EBind SOCKET_PATH; EListen 1; READY]
                    ++ post
              /\ quiet pre = true /\ quiet post = true
              /\ existsb is_accept pre = false
       else quiet evs = true.
Proof.
  unfold run_server, starts. run. rewrite cleanup_run. run.
  rewrite write_file_run by apply PID_FILE_plain. cbn [files after].
  rewrite os_lookup_unlinked by apply PID_FILE_plain.
  set (fs1 := unlinked SOCKET_PATH (files st)).
  assert (is_directory fs1 PID_FILE = is_directory (files st) PID_FILE) as Hd.
  { unfold is_directory, fs1.
    by rewrite os_lookup_unlinked_ne
      by (apply PID_FILE_plain || apply SOCKET_PATH_PID_FILE). }
  rewrite Hd. clear Hd.
  destruct (is_directory (files st) PID_FILE) eqn:HdP; cbn [negb andb].
  { do 3 eexists. split; [reflexivity|]. split; [trace_eq|]. reflexivity. }
  run.
  match goal with |- context [load_model _ _ ?s] =>
    destruct (load_model_run s) as (evsL & HqL & HaL & Hload) end.
  destruct (bool_decide (load_outcome E = None) && nonfatal (compile_outcome E));
    cbn [andb]; destruct Hload as [x Hload]; rewrite Hload; run.
  2:{ do 3 eexists. split; [reflexivity|]. split; [trace_eq|].
      rewrite !quiet_app, HqL; reflexivity. }
  match goal with |- context [warm_up _ _ ?s] =>
    pose proof (warm_up_run s) as Hwarm end.
  destruct (nonfatal (warmup_outcome E)); cbn [andb];
    destruct Hwarm as [w Hwarm]; rewrite Hwarm; run.
  2:{ do 3 eexists. split; [reflexivity|]. split; [trace_eq|].
      rewrite !quiet_app, HqL; reflexivity. }
  rewrite socket_bind_run. cbn [files after].
  rewrite os_lookup_insert_plain_ne
    by (apply SOCKET_PATH_plain || apply PID_FILE_SOCKET_PATH).
  rewrite os_lookup_unlinked_ne
    by (apply SOCKET_PATH_plain || apply PID_FILE_SOCKET_PATH).
  unfold fs1. rewrite os_lookup_unlinked by apply SOCKET_PATH_plain.
  destruct (is_directory (files st) SOCKET_PATH); cbn [negb]; run.
  { do 3 eexists. split; [reflexivity|]. split; [trace_eq|].
    rewrite !quiet_app, HqL; reflexivity. }
  match goal with |- context [try_finally ?m ?f ?s] =>
    destruct (silent_try_finally m f (silent_accept_loop _) silent_cleanup s)
      as (evsS & HtrS & HqS);
    destruct (try_finally m f s) as [o st'] end.
  cbn [snd trace after] in HtrS.
  exists o, st'. eexists. split; [reflexivity|].
  split; [rewrite HtrS; trace_eq|].
  exists ([ESignal SIGTERM; ESignal SIGINT; EUnlink SOCKET_PATH;
           EUnlink PID_FILE; EWrite PID_FILE (str_of_N (pid E))]
          ++ evsL ++ [EPrint stderr (U "Warming up model...")]), w,
    (EPrint stderr (U "Server listening on " ++ SOCKET_PATH) :: evsS).
  split; [by rewrite <- !app_assoc|].
  split; [rewrite !quiet_app, HqL; reflexivity|].
  split; [cbn [quiet forallb]; exact HqS|].
  rewrite !existsb_app, HaL. reflexivity.
Qed.

(** C8, as amended: the readiness marker is written at most once in a
    run, exactly once in a run whose startup gets as far as the listening
    socket and not at all otherwise; and it is written right after the
    warm-up step, successful or logged as failed, and the bind and listen
    on the rendezvous socket, before the first call of [accept]. *)
Theorem run_server_ready arrivals st :
  exists o st' evs,
    run_server unicode_isalnum str_exn E arrivals st = (o, st')
    /\ trace st' = trace st ++ evs
    /\ (count_READY evs <= 1)%nat
    /\ count_READY evs = (if starts E (files st) then 1 else 0)%nat
    /\ (forall pre post,
          evs = pre ++ READY :: post ->
          exists pre' wmsg,
            pre = pre' ++ [EWarmup; EPrint stderr wmsg; ESocket;
                           EBind SOCKET_PATH; EListen 1]
            /\ existsb is_accept pre = false
            /\ count_READY pre = 0%nat /\ count_READY post = 0%nat).
Proof.
  destruct (run_server_run arrivals st) as (o & st' & evs & Hrun & Htr & Hevs).
  exists o, st', evs. split; [done|]. split; [done|].
  destruct (starts E (files st)).
  - destruct Hevs as (pre0 & wmsg & post0 & -> & Hq0 & Hq1 & Hacc).
    assert (count_READY
              (pre0 ++ [EWarmup; EPrint stderr wmsg; ESocket;
                        EBind SOCKET_PATH; EListen 1; READY] ++ post0)
            = 1%nat) as Hcount.
    { rewrite !count_READY_app.
      rewrite (count_READY_quiet pre0), (count_READY_quiet post0) by done.
      vm_compute. reflexivity. }
    rewrite Hcount. split; [lia|]. split; [done|].
    intros pre post Heq.
    destruct (READY_position
                (pre0 ++ [EWarmup; EPrint stderr wmsg; ESocket;
                          EBind SOCKET_PATH; EListen 1]) post0 pre post)
      as [-> ->]; [by rewrite quiet_app, Hq0|done| |].
    + rewrite <- Heq. by rewrite <- !app_assoc.
    + exists pre0, wmsg. split; [done|].
      split; [by rewrite existsb_app, Hacc|].
      split; apply count_READY_quiet; [by rewrite quiet_app, Hq0|done].
  - rewrite count_READY_quiet by done. split; [lia|]. split; [done|].
    intros pre post ->. rewrite quiet_app in Hevs.
    by apply andb_prop in Hevs as [_ Hevs].
Qed.

End Run.

(** ** The handler on the example clients *)

Lemma handle_connection_empty_payload_witness :
  handle_connection (fun _ => false) example_str_exn example_env
    silent_client example_state
  = (Return tt, after example_state example_files [ERecv 0 4096; EClose 0]).
Proof.
  exact (proj1 (handle_connection_empty_payload (fun _ => false)
                  example_str_exn example_env silent_client example_state
                  eq_refl eq_refl)).
Defined.

Lemma handle_connection_reports_exception_witness :
  handle_request (fun _ => false) example_env garbled_client example_state
  = (Raise UnicodeDecodeError,
     after example_state example_files [ERecv 1 4096])
  /\ exists st',
       handle_connection (fun _ => false) example_str_exn example_env
         garbled_client example_state = (Return tt, st')
       /\ trace st'
          = [ERecv 1 4096;
             EPrint stderr (U "ERROR: 'utf-8' codec can't decode byte");
             ESendall 1 (B "ERROR: 'utf-8' codec can't decode byte") true;
             EClose 1].
Proof.
  assert (handle_request (fun _ => false) example_env garbled_client
            example_state
          = (Raise UnicodeDecodeError,
             after example_state example_files [ERecv 1 4096])) as Hraise
    by (vm_compute; reflexivity).
  split; [exact Hraise|].
  destruct (handle_connection_reports_exception (fun _ => false)
              example_str_exn example_env garbled_client example_state
              UnicodeDecodeError _ Hraise)
    as (notify & st' & Hrun & _ & Htrace & Hnotify & _).
  exists st'. split; [exact Hrun|]. rewrite Htrace.
  destruct Hnotify as (text & Henc & _ & ->).
  vm_compute in Henc. injection Henc as <-. reflexivity.
Defined.

(** C1, as stated, fails for an exception whose text does not encode:
    the model raises one with a lone surrogate in its message, the
    message is logged, and nothing is sent to the client before the
    connection is closed. *)
Lemma unencodable_error_not_sent :
  generate surrogate_env (U "/tmp/formula.png") = inl (Exception [0xD800])
  /\ is_Exception (Exception [0xD800]) = true
  /\ utf8_encode (U "ERROR: " ++ example_str_exn (Exception [0xD800])) = None
  /\ handle_connection (fun _ => false) example_str_exn surrogate_env
       image_client example_state
     = (Return tt,
        after example_state example_files
          [ERecv 4 4096;
           EImageOpen (U "/tmp/formula.png"); EGenerate (U "/tmp/formula.png");
           EPrint stderr (U "ERROR: " ++ [0xD800]);
           EClose 4])
  /\ existsb is_sendall
       [ERecv 4 4096;
        EImageOpen (U "/tmp/formula.png"); EGenerate (U "/tmp/formula.png");
        EPrint stderr (U "ERROR: " ++ [0xD800]);
        EClose 4] = false.
Proof. vm_compute. repeat split. Qed.



Lemma handle_connection_whitespace_payload_witness :
  utf8_decode (received blank_client 4096) = Some [SPACE; NEWLINE]
  /\ exists reply more st',
       handle_connection (fun _ => false) example_str_exn example_env
         blank_client example_state = (Return tt, st')
       /\ trace st' = [ERecv 3 4096] ++ reply ++ more ++ [EClose 3]
       /\ reply
          = [EImageOpen [];
             EPrint stderr
               (U "ERROR: " ++ example_str_exn (FileNotFoundError []))].
Proof.
  assert (utf8_decode (received blank_client 4096) = Some [SPACE; NEWLINE])
    as Hdec by (vm_compute; reflexivity).
  split; [exact Hdec|].
  destruct (handle_connection_whitespace_payload (fun _ => false)
              example_str_exn example_env blank_client example_state _
              eq_refl ltac:(discriminate) Hdec eq_refl)
    as (_ & _ & reply & more & st' & Hrun & _ & Htrace & Hcase).
  exists reply, more, st'. split; [exact Hrun|]. split; [exact Htrace|].
  change (os_lookup (files example_state) (U "."))
    with (Some Directory) in Hcase.
  exact (proj1 Hcase).
Defined.

(** C10, as stated, fails where the current directory exists: the blank
    payload is answered with the text of the failed image load, not with
    the fixed not-found payload. *)
Lemma blank_payload_not_answered_not_found :
  received blank_client 4096 <> []
  /\ utf8_decode (received blank_client 4096) = Some [SPACE; NEWLINE]
  /\ str_strip [SPACE; NEWLINE] = []
  /\ handle_connection (fun _ => false) example_str_exn example_env
       blank_client example_state
     = (Return tt,
        after example_state example_files
          [ERecv 3 4096;
           EImageOpen [];
           EPrint stderr (U "ERROR: [Errno 2] No such file or directory: ''");
           ESendall 3 (B "ERROR: [Errno 2] No such file or directory: ''") true;
           EClose 3])
  /\ B "ERROR: [Errno 2] No such file or directory: ''"
     <> B "ERROR: Image not found".
Proof.
  split; [discriminate|]. split; [vm_compute; reflexivity|].
  split; [vm_compute; reflexivity|]. split; [vm_compute; reflexivity|].
  discriminate.
Qed.

(** ** The daemon on the examples *)

(** C8, as stated, fails in a run whose model does not load: the run ends
    before the socket is made and the marker is never written. *)
Lemma run_server_without_ready :
  run_server (fun _ => false) example_str_exn broken_env
    [Connect image_client] example_state
  = (Raise (OSError (U "FormulaNet is not a local folder")),
     after example_state
       (<[PID_FILE := RegularFile (U "4242")]> example_files)
       [ESignal SIGTERM; ESignal SIGINT;
        EUnlink SOCKET_PATH; EUnlink PID_FILE;
        EWrite PID_FILE (U "4242");
        EPrint stderr (U "Loading model..."); ELoad])
  /\ count_READY
       [ESignal SIGTERM; ESignal SIGINT;
        EUnlink SOCKET_PATH; EUnlink PID_FILE;
        EWrite PID_FILE (U "4242");
        EPrint stderr (U "Loading model..."); ELoad] = 0%nat
  /\ starts broken_env example_files = false.
Proof. vm_compute. repeat split. Qed.

(** One client, then a termination signal: the reply is the formatted
    text, and [cleanup] runs twice, in the signal handler and on the way
    out of [run_server]. *)
Example run_server_session :
  let r := run_server (fun _ => false) example_str_exn example_env
             [Connect image_client; Signal SIGTERM] example_state in
  r.1 = Raise (SystemExit 0)
  /\ files r.2 = example_files
  /\ trace r.2
     = [ESignal SIGTERM; ESignal SIGINT;
        EUnlink SOCKET_PATH; EUnlink PID_FILE;
        EWrite PID_FILE (U "4242");
        EPrint stderr (U "Loading model..."); ELoad;
        EPrint stderr (U "Compiling model with torch.compile..."); ECompile;
        EPrint stderr (U "Model compiled successfully");
        EPrint stderr (U "Model loaded on cpu");
        EPrint stderr (U "Warming up model..."); EWarmup;
        EPrint stderr (U "Warmup complete");
        ESocket; EBind SOCKET_PATH; EListen 1; READY;
        EPrint stderr (U "Server listening on /tmp/mathsnip_texo.sock");
        EAccept 4; ERecv 4 4096;
        EImageOpen (U "/tmp/formula.png"); EGenerate (U "/tmp/formula.png");
        ESendall 4 (B "x^2") true; EClose 4;
        EPrint stderr (U "Received signal 15, shutting down...");
        EUnlink SOCKET_PATH; EUnlink PID_FILE;
        EUnlink SOCKET_PATH; EUnlink PID_FILE].
Proof. vm_compute. repeat split. Qed.

(** * Further properties of the formatter *)

Lemma nonspace_chars_app a b :
  nonspace_chars (a ++ b) = nonspace_chars a ++ nonspace_chars b.
Proof.
  induction a as [|c a IH]; simpl; [done|].
  destruct (isspace c); by rewrite IH.
Qed.

Lemma nonspace_chars_nonspace t : nonspace t = true -> nonspace_chars t = t.
Proof.
  induction t as [|c t IH]; simpl; [done|].
  intros [Hc Ht]%andb_prop. apply negb_true_iff in Hc.
  by rewrite Hc, IH.
Qed.

Lemma nonspace_chars_space ws : forallb isspace ws = true -> nonspace_chars ws = [].
Proof.
  induction ws as [|c ws IH]; simpl; [done|].
  intros [-> Hws]%andb_prop. by apply IH.
Qed.

Lemma concat_split_from s : forall cur,
  concat (split_from cur s) = cur ++ nonspace_chars s.
Proof.
  induction s as [|c s IH]; intros cur; simpl.
  - destruct cur; simpl; by rewrite ?app_nil_r.
  - destruct (isspace c).
    + destruct cur as [|a cur]; simpl; by rewrite IH.
    + by rewrite IH, <- app_assoc.
Qed.

(** The formatter in terms of the tokens alone, the empty input
    included. *)
Lemma format_latex_split unicode_isalnum latex :
  format_latex unicode_isalnum latex
  = match str_split latex with
    | [] => []
    | tokens => format_tokens unicode_isalnum tokens
    end.
Proof.
  destruct latex as [|c latex]; [reflexivity|].
  unfold format_latex. by destruct (str_split (c :: latex)).
Qed.

Section FormatterText.

Variable unicode_isalnum : char -> bool.

Lemma nonspace_chars_format_tokens tokens :
  Forall (fun t => is_token t = true) tokens ->
  nonspace_chars (format_tokens unicode_isalnum tokens) = concat tokens.
Proof.
  induction tokens as [|t tokens IH]; intros Hall; [done|].
  apply Forall_cons in Hall as [Ht Hall].
  apply is_token_nonspace in Ht as [_ Ht].
  destruct tokens as [|t' r].
  - rewrite format_tokens_one. simpl.
    by rewrite app_nil_r, nonspace_chars_nonspace.
  - rewrite format_tokens_cons, !nonspace_chars_app, IH by done.
    rewrite nonspace_chars_nonspace by done.
    by destruct (separator_cases unicode_isalnum t t')
      as [(-> & _)|[(-> & _)|(-> & _)]].
Qed.

(** X1: the formatter changes whitespace only: with the whitespace taken
    out, the output and the input are the same text. *)
Theorem format_latex_preserves_text latex :
  nonspace_chars (format_latex unicode_isalnum latex) = nonspace_chars latex.
Proof.
  rewrite format_latex_split.
  pose proof (str_split_tokens latex) as Hall.
  pose proof (concat_split_from latex []) as Hcat.
  fold (str_split latex) in Hcat. simpl in Hcat.
  destruct (str_split latex) as [|t r] eqn:Hsplit.
  - by rewrite <- Hcat.
  - by rewrite nonspace_chars_format_tokens, Hcat.
Qed.

Lemma length_split_from s : forall cur,
  (length (concat (split_from cur s)) + length (split_from cur s)
   <= length cur + length s + 1)%nat.
Proof.
  induction s as [|c s IH]; intros cur; simpl.
  - destruct cur; simpl; rewrite ?app_nil_r; lia.
  - destruct (isspace c).
    + destruct cur as [|a cur]; simpl.
      * specialize (IH []). simpl in IH. lia.
      * specialize (IH []). simpl in IH. rewrite length_app. lia.
    + specialize (IH (cur ++ [c])). rewrite length_app in IH. simpl in IH. lia.
Qed.

Lemma length_format_tokens tokens :
  tokens <> [] ->
  (length (format_tokens unicode_isalnum tokens) + 1
   <= length (concat tokens) + length tokens)%nat.
Proof.
  induction tokens as [|t tokens IH]; intros Hne; [done|].
  destruct tokens as [|t' r].
  - rewrite format_tokens_one. simpl. rewrite app_nil_r. lia.
  - rewrite format_tokens_cons, !length_app.
    specialize (IH ltac:(done)).
    change (concat (t :: t' :: r)) with (t ++ concat (t' :: r)).
    rewrite length_app. cbn [length] in *.
    destruct (separator_cases unicode_isalnum t t')
      as [(-> & _)|[(-> & _)|(-> & _)]]; cbn [length]; lia.
Qed.

(** X2: the output is never longer than the input. *)
Theorem format_latex_length latex :
  (length (format_latex unicode_isalnum latex) <= length latex)%nat.
Proof.
  rewrite format_latex_split.
  pose proof (length_split_from latex []) as Hlen.
  fold (str_split latex) in Hlen. simpl in Hlen.
  destruct (str_split latex) as [|t r] eqn:Hsplit; [simpl; lia|].
  pose proof (length_format_tokens (t :: r) ltac:(done)). lia.
Qed.

End FormatterText.

(** ** Spacing of the input *)

Lemma split_from_spaces ws : forall cur s,
  forallb isspace ws = true -> ws <> [] ->
  split_from cur (ws ++ s)
  = match cur with [] => [] | _ => [cur] end ++ str_split s.
Proof.
  induction ws as [|w ws IH]; intros cur s Hws Hne; [done|].
  simpl in Hws. apply andb_prop in Hws as [Hw Hws].
  simpl. rewrite Hw. destruct ws as [|w' ws].
  - by destruct cur.
  - rewrite (IH [] s Hws) by done. by destruct cur.
Qed.

Lemma str_split_spaces ws s :
  forallb isspace ws = true -> str_split (ws ++ s) = str_split s.
Proof.
  intros Hws. destruct ws as [|w ws]; [done|].
  unfold str_split at 1. by rewrite split_from_spaces.
Qed.

Lemma split_from_inner_spaces a : forall cur ws ws' b,
  forallb isspace ws = true -> ws <> [] ->
  forallb isspace ws' = true -> ws' <> [] ->
  split_from cur (a ++ ws ++ b) = split_from cur (a ++ ws' ++ b).
Proof.
  induction a as [|c a IH]; intros cur ws ws' b Hws Hne Hws' Hne'; simpl.
  - by rewrite !split_from_spaces.
  - destruct (isspace c); [destruct cur|]; by rewrite (IH _ ws ws').
Qed.

Lemma split_from_trailing_spaces s : forall cur ws,
  forallb isspace ws = true ->
  split_from cur (s ++ ws) = split_from cur s.
Proof.
  induction s as [|c s IH]; intros cur ws Hws; simpl.
  - destruct ws as [|w ws]; [done|].
    rewrite <- (app_nil_r (w :: ws)), split_from_spaces by done.
    by rewrite app_nil_r.
  - destruct (isspace c); [destruct cur|]; by rewrite IH.
Qed.

Lemma split_from_nil_iff s : forall cur,
  split_from cur s = [] <-> cur = [] /\ forallb isspace s = true.
Proof.
  induction s as [|c s IH]; intros cur; simpl.
  - destruct cur; split; try done; by intros [? _].
  - destruct (isspace c); simpl.
    + destruct cur; [by rewrite IH|]. split; [done|by intros [? _]].
    + rewrite IH. split; [intros [? _]; by destruct cur|intros [_ ?]; done].
Qed.

Section FormatterSpacing.

Variable unicode_isalnum : char -> bool.

(** X3: the output is empty exactly when the input holds no token, that
    is, when it is empty or all whitespace. *)
Theorem format_latex_empty_iff latex :
  format_latex unicode_isalnum latex = [] <-> forallb isspace latex = true.
Proof.
  rewrite format_latex_split.
  pose proof (split_from_nil_iff latex []) as Hnil.
  fold (str_split latex) in Hnil.
  pose proof (str_split_tokens latex) as Hall.
  destruct (str_split latex) as [|t r].
  - split; [intros _; by apply Hnil|done].
  - split.
    + intros Hempty. exfalso.
      apply Forall_cons in Hall as [Ht _].
      destruct (format_tokens_first unicode_isalnum t r) as [z Hz].
      rewrite Hz in Hempty. by destruct t.
    + intros Hsp. destruct Hnil as [_ Hnil].
      specialize (Hnil (conj eq_refl Hsp)). discriminate.
Qed.

(** X4: only the tokens count: a run of whitespace between two parts of
    the input can be replaced by any other run, and whitespace around
    the input can be dropped, without changing the output. *)
Theorem format_latex_spacing ws ws' a b :
  forallb isspace ws = true -> forallb isspace ws' = true ->
  (ws <> [] -> ws' <> [] ->
   format_latex unicode_isalnum (a ++ ws ++ b)
   = format_latex unicode_isalnum (a ++ ws' ++ b))
  /\ format_latex unicode_isalnum (ws ++ a ++ ws')
     = format_latex unicode_isalnum a.
Proof.
  intros Hws Hws'. split.
  - intros Hne Hne'. rewrite !format_latex_split. unfold str_split.
    by rewrite (split_from_inner_spaces a [] ws ws').
  - rewrite !format_latex_split, str_split_spaces by done.
    unfold str_split. by rewrite split_from_trailing_spaces.
Qed.

Lemma format_tokens_plain tokens :
  Forall (fun t => is_token t = true) tokens ->
  Forall (fun t => startswith t [BACKSLASH] = false) tokens ->
  format_tokens unicode_isalnum tokens = concat tokens.
Proof.
  induction tokens as [|t tokens IH]; intros Hall Hplain; [done|].
  apply Forall_cons in Hall as [Ht Hall].
  apply Forall_cons in Hplain as [Hs Hplain].
  destruct tokens as [|t' r].
  - rewrite format_tokens_one. simpl. by rewrite app_nil_r.
  - rewrite format_tokens_cons, IH by done.
    destruct (separator_cases unicode_isalnum t t')
      as [(_ & _ & Hs' & _)|[(_ & ->)|(-> & _)]]; [congruence|done|done].
Qed.

(** X5: separators come only after tokens that begin with a backslash:
    when no token of the input begins with one, the output is the input
    with all its whitespace removed. *)
Theorem format_latex_plain latex :
  Forall (fun t => startswith t [BACKSLASH] = false) (str_split latex) ->
  format_latex unicode_isalnum latex = nonspace_chars latex.
Proof.
  intros Hplain. rewrite format_latex_split.
  pose proof (str_split_tokens latex) as Hall.
  pose proof (concat_split_from latex []) as Hcat.
  fold (str_split latex) in Hcat. simpl in Hcat.
  destruct (str_split latex) as [|t r]; [done|].
  by rewrite format_tokens_plain.
Qed.

End FormatterSpacing.

Lemma format_latex_spacing_witness :
  format_latex (fun _ => false) (U "\frac" ++ [SPACE] ++ U "{a}")
  = format_latex (fun _ => false) (U "\frac" ++ [NEWLINE; SPACE; SPACE] ++ U "{a}")
  /\ format_latex (fun _ => false) ([SPACE] ++ U "\frac{a}" ++ [NEWLINE; SPACE; SPACE])
     = format_latex (fun _ => false) (U "\frac{a}").
Proof.
  destruct (format_latex_spacing (fun _ => false) [SPACE]
              [NEWLINE; SPACE; SPACE] (U "\frac") (U "{a}")
              eq_refl eq_refl) as [H _].
  destruct (format_latex_spacing (fun _ => false) [SPACE]
              [NEWLINE; SPACE; SPACE] (U "\frac{a}") []
              eq_refl eq_refl) as [_ H'].
  split; [apply H; discriminate|exact H'].
Defined.

Lemma format_latex_plain_witness :
  format_latex (fun _ => false) (U "x ^ { 2 } + y") = U "x^{2}+y".
Proof.
  apply (format_latex_plain (fun _ => false) (U "x ^ { 2 } + y")).
  vm_compute. repeat constructor.
Defined.

(** * Further properties of the daemon *)

Section Connections.

Variable unicode_isalnum : char -> bool.
Variable str_exn : exn -> str.
Variable E : env.

(** The three ways the processing of a request ends: no reply (the empty
    payload), one [sendall], or an exception before any [sendall]. *)
Lemma handle_request_shape c st :
  exists evs,
    forallb is_request_event evs = true
    /\ (handle_request unicode_isalnum E c st
        = (Return tt, after st (files st) evs)
        \/ (exists data,
              handle_request unicode_isalnum E c st
              = sendall c data (after st (files st) evs)
              /\ (data = B "ERROR: Image not found"
                  \/ exists path raw,
                       generate E path = inr raw
                       /\ utf8_encode (format_latex unicode_isalnum raw)
                          = Some data))
        \/ (exists e,
              handle_request unicode_isalnum E c st
              = (Raise e, after st (files st) evs)
              /\ (is_Exception e = true
                  \/ exists path, generate E path = inl e))).
Proof.
  unfold handle_request, recv. run.
  destruct (recv_error c) as [strerror|]; run.
  { eexists. split; [|right; right; eexists; split; [reflexivity|by left]].
    reflexivity. }
  destruct (received c 4096) as [|b0 data]; run.
  { eexists. split; [|left; reflexivity]. reflexivity. }
  unfold decode. destruct (utf8_decode (b0 :: data)) as [s|]; run.
  2:{ eexists. split; [|right; right; eexists; split; [reflexivity|by left]].
      reflexivity. }
  rewrite Path_exists_run. cbn [files after].
  destruct (os_lookup (files st) (Path (str_strip s))); cbn [negb].
  2:{ destruct (too_long (Path (str_strip s))); run; cbn [negb].
      - eexists. split; [|right; right; eexists; split; [reflexivity|by left]].
        reflexivity.
      - eexists. split; [|right; left; eexists; split; [reflexivity|by left]].
        reflexivity. }
  run. cbn [negb]. unfold inference, get_files. run.
  destruct (os_lookup (files st) (str_strip s)) as [[content| |]|]; run.
  2,3: (eexists; split;
        [|right; right; eexists; split; [reflexivity|by left]]; reflexivity).
  2:{ eexists. split; [|right; right; eexists; split; [reflexivity|left]].
      - reflexivity.
      - apply os_error_is_Exception. }
  destruct (generate E (str_strip s)) as [e|raw] eqn:Hgen; run.
  { eexists. split; [|right; right; eexists; split; [reflexivity|eauto]].
    reflexivity. }
  unfold encode.
  destruct (utf8_encode (format_latex unicode_isalnum raw)) as [reply|] eqn:Henc;
    run.
  - eexists. split; [|right; left; eexists; split; [reflexivity|eauto]].
    reflexivity.
  - eexists. split; [|right; right; eexists; split; [reflexivity|by left]].
    reflexivity.
Qed.

Lemma request_events_inner evs :
  forallb is_request_event evs = true ->
  forallb is_inner_event evs = true /\ deliveries evs = 0%nat
  /\ forallb (fun ev => negb (is_sendall ev)) evs = true.
Proof.
  unfold deliveries. induction evs as [|ev evs IH]; [done|].
  cbn [forallb List.filter]. intros [Hev Hevs]%andb_prop.
  destruct (IH Hevs) as (-> & Hd & ->). by destruct ev.
Qed.

Lemma deliveries_app evs evs' :
  deliveries (evs ++ evs') = (deliveries evs + deliveries evs')%nat.
Proof. unfold deliveries. by rewrite List.filter_app, length_app. Qed.

(** Every way a connection is handled: the events between the accept
    and the close, the outcome, and what is sent. *)
Lemma handle_connection_shape c st :
  exists o evs st',
    handle_connection unicode_isalnum str_exn E c st = (o, st')
    /\ files st' = files st
    /\ trace st' = trace st ++ evs ++ [EClose (conn_id c)]
    /\ forallb is_inner_event evs = true
    /\ (deliveries evs <= 1)%nat
    /\ (o = Return tt
        \/ exists e path,
             o = Raise e /\ is_Exception e = false /\ generate E path = inl e)
    /\ Forall (fun ev =>
                 forall conn data sent, ev = ESendall conn data sent ->
                 conn = conn_id c
                 /\ ((exists rest, data = B "ERROR: " ++ rest)
                     \/ exists path raw,
                          generate E path = inr raw
                          /\ utf8_encode (format_latex unicode_isalnum raw)
                             = Some data)) evs.
Proof.
  destruct (handle_request_shape c st) as (evs0 & Hev0 & Hshape).
  destruct (request_events_inner evs0 Hev0) as (Hin0 & Hd0 & Hns0).
  assert (Forall (fun ev =>
            forall conn data sent, ev = ESendall conn data sent ->
            conn = conn_id c
            /\ ((exists rest, data = B "ERROR: " ++ rest)
                \/ exists path raw,
                     generate E path = inr raw
                     /\ utf8_encode (format_latex unicode_isalnum raw)
                        = Some data)) evs0) as Hsend0.
  { clear -Hns0. induction evs0 as [|ev evs0 IH]; [constructor|].
    cbn [forallb] in Hns0. apply andb_prop in Hns0 as [Hev Hns0].
    constructor; [|by apply IH]. intros conn data sent ->. done. }
  unfold handle_connection, try_finally, try_except.
  destruct Hshape as [Hreq|[(data & Hreq & Hdata)|(e & Hreq & He)]];
    rewrite Hreq.
  - run. eexists. exists evs0. eexists.
    split; [reflexivity|]. cbn [files trace after].
    split; [done|]. split; [done|]. split; [done|]. split; [lia|].
    split; [by left|done].
  - rewrite sendall_run.
    assert (forall sent conn data' sent',
              ESendall (conn_id c) data sent = ESendall conn data' sent' ->
              conn = conn_id c
              /\ ((exists rest, data' = B "ERROR: " ++ rest)
                  \/ exists path raw,
                       generate E path = inr raw
                       /\ utf8_encode (format_latex unicode_isalnum raw)
                          = Some data')) as Hfirst.
    { intros sent conn data' sent' [= <- <- _]. split; [done|].
      destruct Hdata as [->|Hmodel]; [left; by exists (B "Image not found")|].
      by right. }
    destruct (send_ok (after st (files st) evs0)) eqn:Hok.
    + run. eexists. exists (evs0 ++ [ESendall (conn_id c) data true]). eexists.
      split; [reflexivity|]. cbn [files trace after].
      split; [done|].
      split; [by rewrite <- !app_assoc|].
      split; [by rewrite forallb_app, Hin0|].
      split; [rewrite deliveries_app, Hd0; cbn; lia|].
      split; [by left|].
      apply Forall_app. split; [done|]. constructor; [|constructor].
      apply Hfirst.
    + cbn [is_Exception]. rewrite report_error_run. run.
      set (error_msg := U "ERROR: " ++ str_exn _).
      set (st2 := State _ _ _).
      destruct (utf8_encode error_msg) as [err|] eqn:Henc.
      * eexists.
        exists (evs0 ++ [ESendall (conn_id c) data false;
                         EPrint stderr error_msg;
                         ESendall (conn_id c) err (send_ok st2)]).
        eexists. split; [reflexivity|]. cbn [files trace sends after].
        split; [done|].
        split; [subst st2; cbn [trace]; by rewrite <- !app_assoc|].
        split; [by rewrite forallb_app, Hin0|].
        split; [rewrite deliveries_app, Hd0; unfold deliveries;
                cbn [List.filter is_delivery];
                destruct (send_ok st2); cbn; lia|].
        split; [by left|].
        apply Forall_app. split; [done|].
        constructor; [apply Hfirst|]. constructor; [done|].
        constructor; [|constructor].
        intros conn data' sent' [= <- <- _]. split; [done|]. left.
        by apply (utf8_encode_error_marker _ _ Henc).
      * eexists.
        exists (evs0 ++ [ESendall (conn_id c) data false;
                         EPrint stderr error_msg]).
        eexists. split; [reflexivity|]. run.
        split; [done|].
        split; [subst st2; cbn [trace]; by rewrite <- !app_assoc|].
        split; [by rewrite forallb_app, Hin0|].
        split; [rewrite deliveries_app, Hd0; cbn; lia|].
        split; [by left|].
        apply Forall_app. split; [done|].
        constructor; [apply Hfirst|]. constructor; [done|constructor].
  - destruct (is_Exception e) eqn:Hexc.
    + rewrite report_error_run. run.
      set (error_msg := U "ERROR: " ++ str_exn e).
      set (st1 := after st (files st) evs0).
      destruct (utf8_encode error_msg) as [err|] eqn:Henc.
      * eexists.
        exists (evs0 ++ [EPrint stderr error_msg;
                         ESendall (conn_id c) err (send_ok st1)]).
        eexists. split; [reflexivity|]. cbn [files trace sends after].
        split; [done|].
        split; [subst st1; cbn [trace after]; by rewrite <- !app_assoc|].
        split; [by rewrite forallb_app, Hin0|].
        split; [rewrite deliveries_app, Hd0; unfold deliveries;
                cbn [List.filter is_delivery];
                destruct (send_ok st1); cbn; lia|].
        split; [by left|].
        apply Forall_app. split; [done|].
        constructor; [done|]. constructor; [|constructor].
        intros conn data' sent' [= <- <- _]. split; [done|]. left.
        by apply (utf8_encode_error_marker _ _ Henc).
      * eexists. exists (evs0 ++ [EPrint stderr error_msg]).
        eexists. split; [reflexivity|]. run.
        split; [done|].
        split; [by rewrite <- ?app_assoc|].
        split; [by rewrite forallb_app, Hin0|].
        split; [rewrite deliveries_app, Hd0; cbn; lia|].
        split; [by left|].
        apply Forall_app. split; [done|]. constructor; [done|constructor].
    + run. destruct He as [He|[path Hgen]]; [congruence|].
      eexists. exists evs0. eexists.
      split; [reflexivity|]. cbn [files trace after].
      split; [done|]. split; [done|]. split; [done|]. split; [lia|].
      split; [right; eauto|done].
Qed.

Lemma inner_events_no_close evs :
  forallb is_inner_event evs = true ->
  existsb is_close evs = false /\ existsb is_accept evs = false
  /\ quiet evs = true.
Proof.
  induction evs as [|ev evs IH]; [done|].
  cbn [forallb existsb quiet]. intros [Hev Hevs]%andb_prop.
  destruct (IH Hevs) as (-> & -> & Hq). unfold quiet in Hq. rewrite Hq.
  unfold is_inner_event in Hev.
  apply andb_prop in Hev as [[Ha Hc]%andb_prop Hs].
  apply negb_true_iff in Ha, Hc. by rewrite Ha, Hc, Hs.
Qed.

(** X6: when a connection has been handled, whatever the request and
    the transport did, the connection has been closed exactly once and
    as the last thing, the client has been delivered at most one reply,
    the file system is as it was, and the handler has ended normally or
    with what is not an [Exception]. *)
Theorem handle_connection_closes c st o st' :
  handle_connection unicode_isalnum str_exn E c st = (o, st') ->
  exists evs,
    files st' = files st
    /\ trace st' = trace st ++ evs ++ [EClose (conn_id c)]
    /\ existsb is_close evs = false
    /\ (deliveries evs <= 1)%nat
    /\ (o = Return tt \/ exists e, o = Raise e /\ is_Exception e = false).
Proof.
  destruct (handle_connection_shape c st)
    as (o1 & evs & st1 & Hrun & Hfiles & Htrace & Hinner & Hdel & Ho & _).
  rewrite Hrun. intros [= <- <-].
  exists evs. split; [done|]. split; [done|].
  split; [by apply inner_events_no_close|]. split; [done|].
  destruct Ho as [->|(e & path & -> & He & _)]; [by left|right; eauto].
Qed.

(** X7: when the model raises nothing but [Exception]s, no connection
    ends the handler with an exception: it always returns normally. *)
Theorem handle_connection_returns c st :
  well_behaved E ->
  (handle_connection unicode_isalnum str_exn E c st).1 = Return tt.
Proof.
  intros Hwb.
  destruct (handle_connection_shape c st)
    as (o & evs & st' & Hrun & _ & _ & _ & _ & Ho & _).
  rewrite Hrun. destruct Ho as [->|(e & path & -> & Hexc & Hgen)]; [done|].
  apply Hwb in Hgen. congruence.
Qed.

(** X8: every payload the daemon sends goes to the connection being
    handled and is either the UTF-8 of the formatted text of the model or
    begins with the marker [ERROR: ]. *)
Theorem handle_connection_replies c st conn data sent :
  In (ESendall conn data sent)
    (drop (length (trace st))
       (trace (handle_connection unicode_isalnum str_exn E c st).2)) ->
  conn = conn_id c
  /\ ((exists rest, data = B "ERROR: " ++ rest)
      \/ exists path raw,
           generate E path = inr raw
           /\ utf8_encode (format_latex unicode_isalnum raw) = Some data).
Proof.
  destruct (handle_connection_shape c st)
    as (o & evs & st' & Hrun & _ & Htrace & _ & _ & _ & Hsends).
  rewrite Hrun. cbn [snd]. rewrite Htrace, drop_app_length.
  intros [Hin|[Hin|[]]]%in_app_or; [|done].
  rewrite Forall_forall in Hsends.
  apply (Hsends (ESendall conn data sent) (proj2 (list_elem_of_In _ _) Hin)
           conn data sent eq_refl).
Qed.

(** X9: the request that succeeds: for a payload naming a regular file on
    which the model returns a text, the reply is the UTF-8 of the formatted
    text, sent once, and the connection is closed. *)
Theorem handle_connection_success c st s content raw reply :
  recv_error c = None ->
  received c 4096 <> [] ->
  utf8_decode (received c 4096) = Some s ->
  os_lookup (files st) (str_strip s) = Some (RegularFile content) ->
  generate E (str_strip s) = inr raw ->
  utf8_encode (format_latex unicode_isalnum raw) = Some reply ->
  send_ok st = true ->
  handle_connection unicode_isalnum str_exn E c st
  = (Return tt,
     State (files st)
       (trace st
        ++ [ERecv (conn_id c) 4096;
            EImageOpen (str_strip s); EGenerate (str_strip s);
            ESendall (conn_id c) reply true; EClose (conn_id c)])
       (tail (sends st))).
Proof.
  intros Hrecv Hdata Hdec Hfile Hgen Henc Hok.
  unfold handle_connection, try_finally, try_except.
  rewrite (handle_request_decoded unicode_isalnum E c st s Hrecv Hdata Hdec).
  cbv zeta. rewrite (os_lookup_Path _ _ _ Hfile).
  unfold inference, get_files, encode. run. rewrite Hfile. run.
  rewrite Hgen. run. rewrite Henc. run. rewrite sendall_run.
  change (send_ok (after st (files st) _)) with (send_ok st). rewrite Hok.
  run. unfold after. cbn [files trace sends]. by rewrite <- !app_assoc.
Qed.

End Connections.

Lemma handle_connection_closes_witness :
  exists evs,
    trace (after example_state example_files
             [ERecv 4 4096;
              EImageOpen (U "/tmp/formula.png"); EGenerate (U "/tmp/formula.png");
              ESendall 4 (B "x^2") true; EClose 4])
    = trace example_state ++ evs ++ [EClose (conn_id image_client)]
    /\ existsb is_close evs = false
    /\ (deliveries evs <= 1)%nat.
Proof.
  destruct (handle_connection_closes (fun _ => false) example_str_exn
              example_env image_client example_state (Return tt)
              (after example_state example_files
                 [ERecv 4 4096;
                  EImageOpen (U "/tmp/formula.png");
                  EGenerate (U "/tmp/formula.png");
                  ESendall 4 (B "x^2") true; EClose 4])
              ltac:(vm_compute; reflexivity))
    as (evs & _ & Htrace & Hclose & Hdel & _).
  exists evs. split; [exact Htrace|]. split; [exact Hclose|exact Hdel].
Defined.

Lemma handle_connection_returns_witness :
  well_behaved example_env
  /\ (handle_connection (fun _ => false) example_str_exn example_env
        garbled_client example_state).1 = Return tt.
Proof.
  assert (well_behaved example_env) as Hwb by (intros path e; discriminate).
  split; [exact Hwb|].
  exact (handle_connection_returns (fun _ => false) example_str_exn
           example_env garbled_client example_state Hwb).
Defined.

Lemma handle_connection_success_witness :
  handle_connection (fun _ => false) example_str_exn example_env
    image_client example_state
  = (Return tt,
     after example_state example_files
       [ERecv 4 4096;
        EImageOpen (U "/tmp/formula.png"); EGenerate (U "/tmp/formula.png");
        ESendall 4 (B "x^2") true; EClose 4]).
Proof.
  exact (handle_connection_success (fun _ => false) example_str_exn
           example_env image_client example_state
           (U "/tmp/formula.png") [] (U "x ^ 2") (B "x^2")
           eq_refl ltac:(discriminate) ltac:(vm_compute; reflexivity)
           ltac:(vm_compute; reflexivity) eq_refl
           ltac:(vm_compute; reflexivity) eq_refl).
Defined.

Lemma handle_connection_replies_witness :
  In (ESendall 2 (B "ERROR: Image not found") true)
    (drop (length (trace example_state))
       (trace (handle_connection (fun _ => false) example_str_exn
                 example_env missing_client example_state).2))
  /\ exists rest, B "ERROR: Image not found" = B "ERROR: " ++ rest.
Proof.
  assert (In (ESendall 2 (B "ERROR: Image not found") true)
            (drop (length (trace example_state))
               (trace (handle_connection (fun _ => false) example_str_exn
                         example_env missing_client example_state).2)))
    as Hin by (vm_compute; right; left; reflexivity).
  split; [exact Hin|].
  destruct (handle_connection_replies (fun _ => false) example_str_exn
              example_env missing_client example_state _ _ _ Hin)
    as [_ [Hmark|(path & raw & Hgen & Henc)]]; [exact Hmark|].
  exists (B "Image not found"). reflexivity.
Defined.

(** ** Serving and shutting down *)

Section Serving.

Variable unicode_isalnum : char -> bool.
Variable str_exn : exn -> str.
Variable E : env.

Hypothesis generate_well_behaved : well_behaved E.

(** The loop over the connections that arrive before anything else. *)
Lemma accept_loop_app cs : forall rest st,
  exists blocks st1,
    accept_loop unicode_isalnum str_exn E (map Connect cs ++ rest) st
    = accept_loop unicode_isalnum str_exn E rest st1
    /\ files st1 = files st
    /\ trace st1 = trace st ++ concat blocks
    /\ Forall2 connection_block cs blocks.
Proof.
  induction cs as [|c cs IH]; intros rest st.
  - exists [], st. cbn [map app concat]. rewrite app_nil_r.
    split; [done|]. split; [done|]. split; [done|constructor].
  - cbn [map app]. rewrite accept_loop_connect.
    destruct (handle_connection_shape unicode_isalnum str_exn E c
                (accept c st).2)
      as (o & evs & st' & Hrun & Hfiles & Htrace & Hinner & _ & Ho & _).
    rewrite Hrun.
    destruct Ho as [->|(e & path & -> & Hexc & Hgen)];
      [|apply generate_well_behaved in Hgen; congruence].
    destruct (IH rest st') as (blocks & st1 & Hloop & Hfiles1 & Htrace1 & Hall).
    exists ((EAccept (conn_id c) :: evs ++ [EClose (conn_id c)]) :: blocks), st1.
    split; [done|]. split; [by rewrite Hfiles1, Hfiles|].
    split.
    + rewrite Htrace1, Htrace. cbn [accept snd trace concat app].
      rewrite <- !app_assoc. cbn [app]. by rewrite <- ?app_assoc.
    + constructor; [|done]. by exists evs.
Qed.

(** X10: the connections are served one at a time and in the order of
    their arrival: the trace of the loop is the sequence of their blocks,
    each from its accept to its close with no other accept or close in
    between; the file system is untouched, and the loop then waits. *)
Theorem accept_loop_in_order cs st :
  exists blocks st',
    accept_loop unicode_isalnum str_exn E (map Connect cs) st = (Blocked, st')
    /\ files st' = files st
    /\ trace st' = trace st ++ concat blocks
    /\ Forall2 connection_block cs blocks.
Proof.
  destruct (accept_loop_app cs [] st)
    as (blocks & st1 & Hloop & Hfiles & Htrace & Hall).
  rewrite app_nil_r in Hloop. exists blocks, st1. by rewrite Hloop.
Qed.

Lemma starts_inv fs :
  starts E fs = true ->
  is_directory fs PID_FILE = false /\ is_directory fs SOCKET_PATH = false
  /\ bool_decide (load_outcome E = None) && nonfatal (compile_outcome E) = true
  /\ nonfatal (warmup_outcome E) = true.
Proof.
  unfold starts. intros [[[HP HL]%andb_prop HW]%andb_prop HS]%andb_prop.
  apply negb_true_iff in HP, HS. done.
Qed.

Lemma cleaned_lookups fs :
  is_directory fs PID_FILE = false -> is_directory fs SOCKET_PATH = false ->
  unlinked PID_FILE (unlinked SOCKET_PATH fs) !! PID_FILE = None
  /\ unlinked PID_FILE (unlinked SOCKET_PATH fs) !! SOCKET_PATH = None.
Proof.
  intros HP HS.
  rewrite <- !os_lookup_plain
    by (apply PID_FILE_plain || apply SOCKET_PATH_plain).
  rewrite os_lookup_unlinked by apply PID_FILE_plain.
  rewrite (os_lookup_unlinked_ne _ PID_FILE SOCKET_PATH)
    by (apply SOCKET_PATH_plain || apply PID_FILE_SOCKET_PATH).
  rewrite os_lookup_unlinked, HS by apply SOCKET_PATH_plain.
  unfold is_directory.
  rewrite os_lookup_unlinked_ne
    by (apply PID_FILE_plain || apply SOCKET_PATH_PID_FILE).
  unfold is_directory in HP. by rewrite HP.
Qed.

Lemma lookup_unlinked_ne (fs : gmap str node) path path' :
  path <> path' -> unlinked path fs !! path' = fs !! path'.
Proof.
  intros Hne. unfold unlinked.
  destruct (os_lookup fs path) as [[]|]; by rewrite ?lookup_delete_ne by done.
Qed.

Lemma unlinked_none (m : gmap str node) path :
  plain path = true -> m !! path = None -> unlinked path m = m.
Proof.
  intros Hp Hm. unfold unlinked. by rewrite os_lookup_plain, Hm.
Qed.

Lemma unlinked_inserted (m : gmap str node) content :
  m !! PID_FILE = None -> m !! SOCKET_PATH = None ->
  unlinked PID_FILE
    (unlinked SOCKET_PATH
       (<[SOCKET_PATH := SocketFile]>
          (<[PID_FILE := RegularFile content]> m)))
  = m.
Proof.
  intros HP HS.
  assert (unlinked SOCKET_PATH
            (<[SOCKET_PATH := SocketFile]>
               (<[PID_FILE := RegularFile content]> m))
          = <[PID_FILE := RegularFile content]> m) as ->.
  { unfold unlinked.
    rewrite os_lookup_plain, lookup_insert_eq by apply SOCKET_PATH_plain.
    rewrite delete_insert_eq. apply delete_id.
    by rewrite lookup_insert_ne
      by (intros H; symmetry in H; by apply SOCKET_PATH_PID_FILE in H). }
  unfold unlinked.
  rewrite os_lookup_plain, lookup_insert_eq by apply PID_FILE_plain.
  rewrite delete_insert_eq. by apply delete_id.
Qed.

(** A startup that succeeds leads to the accept loop, with the PID file
    written and the socket bound. *)
Lemma run_server_started arrivals st :
  starts E (files st) = true ->
  exists evs,
    run_server unicode_isalnum str_exn E arrivals st
    = try_finally (accept_loop unicode_isalnum str_exn E arrivals) cleanup
        (after st (serving_files E (files st)) evs).
Proof.
  intros (HP & HS & HL & HW)%starts_inv.
  destruct (cleaned_lookups (files st) HP HS) as [HlP HlS].
  set (fs0 := unlinked PID_FILE (unlinked SOCKET_PATH (files st))) in *.
  set (fs1 := <[PID_FILE := RegularFile (str_of_N (pid E))]> fs0).
  assert (os_lookup fs0 PID_FILE = None) as HoP
    by (by rewrite os_lookup_plain by apply PID_FILE_plain).
  assert (os_lookup fs1 SOCKET_PATH = None) as HoS.
  { rewrite os_lookup_plain by apply SOCKET_PATH_plain. unfold fs1.
    by rewrite lookup_insert_ne
      by (intros H; symmetry in H; by apply SOCKET_PATH_PID_FILE in H). }
  set (st1 := after st fs1
                [ESignal SIGTERM; ESignal SIGINT;
                 EUnlink SOCKET_PATH; EUnlink PID_FILE;
                 EWrite PID_FILE (str_of_N (pid E))]).
  destruct (load_model_run str_exn E st1) as (evsL & _ & _ & Hload).
  rewrite HL in Hload. destruct Hload as [d Hload].
  pose proof (warm_up_run str_exn E (after st1 (files st1) evsL)) as Hwarm.
  rewrite HW in Hwarm. destruct Hwarm as [wmsg Hwarm].
  exists ([ESignal SIGTERM; ESignal SIGINT;
           EUnlink SOCKET_PATH; EUnlink PID_FILE;
           EWrite PID_FILE (str_of_N (pid E))]
          ++ evsL
          ++ [EPrint stderr (U "Warming up model..."); EWarmup;
              EPrint stderr wmsg; ESocket; EBind SOCKET_PATH; EListen 1;
              READY;
              EPrint stderr (U "Server listening on " ++ SOCKET_PATH)]).
  unfold run_server. run. rewrite cleanup_run. run.
  rewrite write_file_run by apply PID_FILE_plain. cbn [files after].
  fold fs0. rewrite HoP. run.
  change (load_model str_exn E _) with (load_model str_exn E st1).
  rewrite Hload. run.
  rewrite Hwarm. run. rewrite socket_bind_run. cbn [files after].
  change (files st1) with fs1. rewrite HoS. run.
  unfold serving_files. fold fs0. fold fs1.
  f_equal. unfold st1, after. cbn [files trace sends]. f_equal.
  by rewrite <- !app_assoc.
Qed.

(** X11: while the daemon waits for connections, having served those that
    arrived, the PID file holds the process id, the socket file is
    there, and no other path has changed. *)
Theorem run_server_serving cs st :
  starts E (files st) = true ->
  exists st',
    run_server unicode_isalnum str_exn E (map Connect cs) st = (Blocked, st')
    /\ files st' !! PID_FILE = Some (RegularFile (str_of_N (pid E)))
    /\ files st' !! SOCKET_PATH = Some SocketFile
    /\ (forall path, path <> PID_FILE -> path <> SOCKET_PATH ->
        files st' !! path = files st !! path).
Proof.
  intros Hstarts.
  destruct (run_server_started (map Connect cs) st Hstarts) as [evs Hrun].
  destruct (accept_loop_app cs [] (after st (serving_files E (files st)) evs))
    as (blocks & st' & Hloop & Hfiles & _).
  rewrite app_nil_r in Hloop. cbn [accept_loop] in Hloop.
  exists st'. rewrite Hrun. unfold try_finally. rewrite Hloop.
  split; [done|]. rewrite Hfiles. cbn [files after]. unfold serving_files.
  split; [|split].
  - rewrite lookup_insert_ne by apply SOCKET_PATH_PID_FILE.
    by rewrite lookup_insert_eq.
  - by rewrite lookup_insert_eq.
  - intros path HnP HnS.
    rewrite !lookup_insert_ne by done.
    by rewrite !lookup_unlinked_ne by done.
Qed.

(** X12: one of the two signals that the daemon handles, [SIGTERM] or
    [SIGINT], arriving while the daemon waits in [accept], ends the run
    with [SystemExit(0)] and leaves neither the socket nor the PID file:
    the file system is what the first [cleanup] of the run had made of
    the initial one. *)
Theorem run_server_signal cs signum rest st :
  starts E (files st) = true ->
  signum = SIGTERM \/ signum = SIGINT ->
  exists st',
    run_server unicode_isalnum str_exn E
      (map Connect cs ++ Signal signum :: rest) st
    = (Raise (SystemExit 0), st')
    /\ files st' = unlinked PID_FILE (unlinked SOCKET_PATH (files st))
    /\ artifact_at (files st') SOCKET_PATH = false
    /\ artifact_at (files st') PID_FILE = false.
Proof.
  intros Hstarts Hsig.
  assert (handled signum = true) as Hhandled by (by destruct Hsig as [->| ->]).
  destruct (run_server_started (map Connect cs ++ Signal signum :: rest)
              st Hstarts) as [evs Hrun].
  destruct (accept_loop_app cs (Signal signum :: rest)
              (after st (serving_files E (files st)) evs))
    as (blocks & st1 & Hloop & Hfiles & _).
  apply starts_inv in Hstarts as (HP & HS & _).
  destruct (cleaned_lookups (files st) HP HS) as [HlP HlS].
  eexists. rewrite Hrun. unfold try_finally. rewrite Hloop.
  cbn [accept_loop]. rewrite Hhandled. unfold signal_handler, print. run.
  rewrite cleanup_run. run. rewrite cleanup_run. run.
  rewrite Hfiles. cbn [files after]. unfold serving_files.
  rewrite unlinked_inserted by done.
  rewrite (unlinked_none _ SOCKET_PATH), (unlinked_none _ PID_FILE)
    by (done || apply SOCKET_PATH_plain || apply PID_FILE_plain).
  split; [reflexivity|]. cbn [files after]. split; [done|].
  split; [apply artifact_at_unlinked_other, artifact_at_unlinked,
            SOCKET_PATH_plain
         |apply artifact_at_unlinked, PID_FILE_plain].
Qed.

End Serving.

(** ** Startup failure, single inference, entry point *)

Section EntryPoint.

Variable unicode_isalnum : char -> bool.
Variable str_exn : exn -> str.
Variable E : env.

(** X13: when the model cannot be loaded the run ends with the exception
    of the load, before any socket is made; [cleanup] is not run on this
    path, so the PID file written at startup stays behind. *)
Theorem run_server_load_failure arrivals st e :
  load_outcome E = Some e ->
  is_directory (files st) PID_FILE = false ->
  exists st',
    run_server unicode_isalnum str_exn E arrivals st = (Raise e, st')
    /\ files st' !! PID_FILE = Some (RegularFile (str_of_N (pid E)))
    /\ artifact_at (files st') PID_FILE = true
    /\ artifact_at (files st') SOCKET_PATH = false
    /\ existsb is_stdout (drop (length (trace st)) (trace st')) = false.
Proof.
  intros Hload HP.
  assert (os_lookup (unlinked PID_FILE (unlinked SOCKET_PATH (files st)))
            PID_FILE = None) as HoP.
  { rewrite os_lookup_unlinked by apply PID_FILE_plain. unfold is_directory.
    rewrite os_lookup_unlinked_ne
      by (apply PID_FILE_plain || apply SOCKET_PATH_PID_FILE).
    unfold is_directory in HP. by rewrite HP. }
  eexists. unfold run_server. run. rewrite cleanup_run. run.
  rewrite write_file_run by apply PID_FILE_plain. cbn [files after].
  rewrite HoP. run.
  unfold load_model, outcome_of, print. run. rewrite Hload. run.
  split; [reflexivity|]. cbn [files trace after].
  split; [by rewrite lookup_insert_eq|].
  split; [unfold artifact_at;
          by rewrite os_lookup_plain, lookup_insert_eq
            by apply PID_FILE_plain|].
  split.
  - unfold artifact_at.
    rewrite os_lookup_insert_plain_ne
      by (apply SOCKET_PATH_plain || apply PID_FILE_SOCKET_PATH).
    apply artifact_at_unlinked_other, artifact_at_unlinked, SOCKET_PATH_plain.
  - by rewrite drop_app_length.
Qed.


(** X15: called with anything but one argument, or with one argument
    that is not [--server] and for which the existence test says no
    (nothing is found at the normal form of the path, and the path is not
    too long for the operating system), [main] writes its message to
    standard error and exits with status 1: the model is not loaded, and
    the file system is not touched. *)
Theorem main_rejects argv arrivals st :
  (forall prog arg, argv <> [prog; arg])
  \/ (exists prog arg,
        argv = [prog; arg] /\ arg <> U "--server"
        /\ os_lookup (files st) (Path arg) = None
        /\ too_long (Path arg) = false) ->
  exists lines,
    main unicode_isalnum str_exn E argv arrivals st
    = (Raise (SystemExit 1),
       after st (files st) (map (EPrint stderr) lines))
    /\ lines <> [].
Proof.
  intros [Hargs|(prog & arg & -> & Harg & Hnone & Hlong)].
  - exists [U "Usage: inference.py --server  (daemon mode)";
            U "       inference.py <image_path>  (single inference)"].
    split; [|done].
    destruct argv as [|a0 [|a1 [|a2 argv]]]; try (unfold main, print; by run).
    by destruct (Hargs a0 a1).
  - exists [U "Error: Image not found: " ++ arg]. split; [|done].
    unfold main. rewrite bool_decide_eq_false_2 by done.
    rewrite bind_run, Path_exists_run, Hnone, Hlong. cbn [negb].
    unfold print. by run.
Qed.

(** X16: the single-shot mode: for one argument that names a regular
    file, with a model that loads and returns a text, [main] returns
    normally and the one line it writes to standard output, last, is the
    formatted text; it makes no socket and no PID file. *)
Theorem main_single_shot prog arg arrivals st content raw :
  arg <> U "--server" ->
  os_lookup (files st) arg = Some (RegularFile content) ->
  load_outcome E = None ->
  nonfatal (compile_outcome E) = true ->
  generate E arg = inr raw ->
  exists evs,
    main unicode_isalnum str_exn E [prog; arg] arrivals st
    = (Return tt,
       after st (files st)
         (evs ++ [EImageOpen arg; EGenerate arg;
                  EPrint stdout (format_latex unicode_isalnum raw)]))
    /\ quiet evs = true.
Proof.
  intros Harg Hfile Hload Hcomp Hgen.
  destruct (load_model_run str_exn E st) as (evsL & HqL & _ & HloadM).
  rewrite Hload, Hcomp, bool_decide_eq_true_2 in HloadM by done.
  destruct HloadM as [d HloadM].
  exists evsL. split; [|done].
  unfold main. rewrite bool_decide_eq_false_2 by done.
  rewrite bind_run, Path_exists_run, (os_lookup_Path _ _ _ Hfile).
  cbn [negb]. run.
  rewrite HloadM. run.
  unfold inference, get_files, print. run. rewrite Hfile. run.
  rewrite Hgen. run. by rewrite <- ?app_assoc.
Qed.

End EntryPoint.

(** ** The further properties on the examples *)

Lemma example_env_well_behaved : well_behaved example_env.
Proof. intros path e. discriminate. Qed.

Lemma accept_loop_in_order_witness :
  exists blocks st',
    accept_loop (fun _ => false) example_str_exn example_env
      (map Connect [image_client; garbled_client]) example_state
    = (Blocked, st')
    /\ trace st' = trace example_state ++ concat blocks
    /\ Forall2 connection_block [image_client; garbled_client] blocks.
Proof.
  destruct (accept_loop_in_order (fun _ => false) example_str_exn
              example_env example_env_well_behaved
              [image_client; garbled_client] example_state)
    as (blocks & st' & Hloop & _ & Htrace & Hall).
  exists blocks, st'. split; [exact Hloop|]. split; [exact Htrace|exact Hall].
Defined.

Lemma run_server_serving_witness :
  starts example_env (files example_state) = true
  /\ exists st',
       run_server (fun _ => false) example_str_exn example_env
         (map Connect [image_client]) example_state = (Blocked, st')
       /\ files st' !! PID_FILE = Some (RegularFile (U "4242"))
       /\ files st' !! SOCKET_PATH = Some SocketFile.
Proof.
  assert (starts example_env (files example_state) = true) as Hstarts
    by (vm_compute; reflexivity).
  split; [exact Hstarts|].
  destruct (run_server_serving (fun _ => false) example_str_exn example_env
              example_env_well_behaved [image_client] example_state Hstarts)
    as (st' & Hrun & HP & HS & _).
  exists st'. split; [exact Hrun|]. split; [exact HP|exact HS].
Defined.

Lemma run_server_signal_witness :
  exists st',
    run_server (fun _ => false) example_str_exn example_env
      (map Connect [image_client] ++ Signal SIGTERM :: [Connect blank_client])
      example_state
    = (Raise (SystemExit 0), st')
    /\ artifact_at (files st') SOCKET_PATH = false
    /\ artifact_at (files st') PID_FILE = false.
Proof.
  destruct (run_server_signal (fun _ => false) example_str_exn example_env
              example_env_well_behaved [image_client] SIGTERM
              [Connect blank_client] example_state
              ltac:(vm_compute; reflexivity) ltac:(by left))
    as (st' & Hrun & _ & HS & HP).
  exists st'. split; [exact Hrun|]. split; [exact HS|exact HP].
Defined.

Lemma run_server_load_failure_witness :
  exists st',
    run_server (fun _ => false) example_str_exn broken_env
      [Connect image_client] example_state
    = (Raise (OSError (U "FormulaNet is not a local folder")), st')
    /\ artifact_at (files st') PID_FILE = true.
Proof.
  destruct (run_server_load_failure (fun _ => false) example_str_exn
              broken_env [Connect image_client] example_state
              (OSError (U "FormulaNet is not a local folder"))
              eq_refl ltac:(vm_compute; reflexivity))
    as (st' & Hrun & _ & HP & _).
  exists st'. split; [exact Hrun|exact HP].
Defined.

Lemma main_rejects_witness :
  (exists lines,
     main (fun _ => false) example_str_exn example_env
       [U "inference.py"] [] example_state
     = (Raise (SystemExit 1),
        after example_state (files example_state)
          (map (EPrint stderr) lines))
     /\ lines <> [])
  /\ (exists lines,
        main (fun _ => false) example_str_exn example_env
          [U "inference.py"; U "/tmp/missing.png"] [] example_state
        = (Raise (SystemExit 1),
           after example_state (files example_state)
             (map (EPrint stderr) lines))
        /\ lines <> []).
Proof.
  split.
  - apply (main_rejects (fun _ => false) example_str_exn example_env
             [U "inference.py"] [] example_state).
    left. intros prog arg. discriminate.
  - apply (main_rejects (fun _ => false) example_str_exn example_env
             [U "inference.py"; U "/tmp/missing.png"] [] example_state).
    right. exists (U "inference.py"), (U "/tmp/missing.png").
    split; [reflexivity|]. split; [discriminate|].
    split; vm_compute; reflexivity.
Defined.

Lemma main_single_shot_witness :
  exists evs,
    main (fun _ => false) example_str_exn example_env
      [U "inference.py"; U "/tmp/formula.png"] [] example_state
    = (Return tt,
       after example_state (files example_state)
         (evs ++ [EImageOpen (U "/tmp/formula.png");
                  EGenerate (U "/tmp/formula.png");
                  EPrint stdout (format_latex (fun _ => false) (U "x ^ 2"))]))
    /\ quiet evs = true.
Proof.
  apply (main_single_shot (fun _ => false) example_str_exn example_env
           (U "inference.py") (U "/tmp/formula.png") [] example_state []
           (U "x ^ 2")).
  - discriminate.
  - vm_compute. reflexivity.
  - reflexivity.
  - reflexivity.
  - reflexivity.
Defined.

(** ** Whitespace around the requested path *)

Lemma lstrip_spaces ws s : forallb isspace ws = true -> lstrip (ws ++ s) = lstrip s.
Proof.
  induction ws as [|w ws IH]; simpl; [done|].
  intros [-> Hws]%andb_prop. by apply IH.
Qed.

Lemma forallb_isspace_rev ws :
  forallb isspace ws = true -> forallb isspace (rev ws) = true.
Proof.
  induction ws as [|w ws IH]; simpl; [done|].
  intros [Hw Hws]%andb_prop. rewrite forallb_app, IH by done.
  simpl. by rewrite Hw.
Qed.

Lemma lstrip_nonspace_head c s : isspace c = false -> lstrip (c :: s) = c :: s.
Proof. intros Hc. simpl. by rewrite Hc. Qed.

(** [strip] gives back a text that neither begins nor ends with
    whitespace from any whitespace put around it. *)
Lemma str_strip_surrounded ws p ws' :
  forallb isspace ws = true -> forallb isspace ws' = true ->
  (forall c, head p = Some c -> isspace c = false) ->
  (forall c, last p = Some c -> isspace c = false) ->
  str_strip (ws ++ p ++ ws') = p.
Proof.
  intros Hws Hws' Hhead Hlast. unfold str_strip, rstrip.
  rewrite lstrip_spaces by done.
  destruct p as [|c p].
  - simpl. rewrite (lstrip_all_space ws') by done. done.
  - rewrite <- app_comm_cons, lstrip_nonspace_head by (by apply Hhead).
    rewrite app_comm_cons, rev_app_distr, lstrip_spaces
      by (by apply forallb_isspace_rev).
    destruct (rev (c :: p)) as [|d q] eqn:Hrev.
    { apply (f_equal (@rev char)) in Hrev. rewrite rev_involutive in Hrev. done. }
    rewrite lstrip_nonspace_head.
    + rewrite <- Hrev. apply rev_involutive.
    + apply Hlast. apply (f_equal (@rev char)) in Hrev.
      rewrite rev_involutive in Hrev. rewrite Hrev. simpl.
      by rewrite last_snoc.
Qed.

Section Requests.

Variable unicode_isalnum : char -> bool.
Variable str_exn : exn -> str.
Variable E : env.

(** X17: whitespace around the path in a request does not count: a
    client that sends the path with blanks or a newline around it is
    served exactly as one that sends the path alone. *)
Theorem handle_connection_strips conn data data' errors st ws p ws' :
  forallb isspace ws = true -> forallb isspace ws' = true ->
  p <> [] ->
  (forall c, head p = Some c -> isspace c = false) ->
  (forall c, last p = Some c -> isspace c = false) ->
  utf8_decode (received (Connection conn data None errors) 4096)
  = Some (ws ++ p ++ ws') ->
  utf8_decode (received (Connection conn data' None errors) 4096) = Some p ->
  handle_connection unicode_isalnum str_exn E
    (Connection conn data None errors) st
  = handle_connection unicode_isalnum str_exn E
      (Connection conn data' None errors) st.
Proof.
  intros Hws Hws' Hp Hhead Hlast Hdec Hdec'.
  assert (forall d s, s <> [] ->
            utf8_decode (received (Connection conn d None errors) 4096)
            = Some s ->
            received (Connection conn d None errors) 4096 <> []) as Hne.
  { intros d s Hs Hd Hnil. rewrite Hnil in Hd.
    change (utf8_decode []) with (Some (@nil char)) in Hd. congruence. }
  assert (ws ++ p ++ ws' <> []) as Hfull by (by destruct ws, p).
  pose proof (handle_request_decoded unicode_isalnum E
                (Connection conn data None errors) st _ eq_refl
                (Hne data _ Hfull Hdec) Hdec) as Hreq.
  pose proof (handle_request_decoded unicode_isalnum E
                (Connection conn data' None errors) st _ eq_refl
                (Hne data' _ Hp Hdec') Hdec') as Hreq'.
  cbv zeta in Hreq, Hreq'.
  rewrite (str_strip_surrounded ws p ws') in Hreq by done.
  pose proof (str_strip_surrounded [] p [] eq_refl eq_refl Hhead Hlast)
    as Hstrip.
  rewrite app_nil_r in Hstrip. cbn [app] in Hstrip.
  rewrite Hstrip in Hreq'.
  unfold handle_connection, try_finally, try_except.
  rewrite Hreq, Hreq'. reflexivity.
Qed.

End Requests.

Lemma handle_connection_strips_witness :
  handle_connection (fun _ => false) example_str_exn example_env
    (Connection 2 (B " /tmp/missing.png ") None []) example_state
  = handle_connection (fun _ => false) example_str_exn example_env
      (Connection 2 (B "/tmp/missing.png") None []) example_state.
Proof.
  apply (handle_connection_strips (fun _ => false) example_str_exn
           example_env 2%nat (B " /tmp/missing.png ") (B "/tmp/missing.png")
           [] example_state [SPACE] (U "/tmp/missing.png") [SPACE]).
  - reflexivity.
  - reflexivity.
  - discriminate.
  - intros c [= <-]. reflexivity.
  - intros c Hc. vm_compute in Hc. injection Hc as <-. reflexivity.
  - vm_compute. reflexivity.
  - vm_compute. reflexivity.
Defined.

(** ** Every way out of the accept loop *)

Section Exit.

Variable unicode_isalnum : char -> bool.
Variable str_exn : exn -> str.
Variable E : env.

(** The loop leaves the file system alone as long as no handled signal
    arrives. *)
Lemma accept_loop_files arrivals : forall st o st',
  accept_loop unicode_isalnum str_exn E arrivals st = (o, st') ->
  o = Blocked \/ o = Killed -> files st' = files st.
Proof.
  induction arrivals as [|[c|signum] arrivals IH]; intros st o st'.
  - by intros [= <- <-].
  - rewrite accept_loop_connect.
    destruct (handle_connection_shape unicode_isalnum str_exn E c
                (accept c st).2)
      as (o1 & evs & st1 & Hrun & Hfiles & _ & _ & _ & Ho & _).
    rewrite Hrun. destruct Ho as [->|(e & path & -> & _)].
    + intros Hloop Ho. rewrite (IH _ _ _ Hloop Ho). by rewrite Hfiles.
    + intros [= <- <-] [?|?]; done.
  - cbn [accept_loop]. destruct (handled signum).
    + unfold signal_handler, print. run. rewrite cleanup_run. run.
      intros [= <- <-] [?|?]; done.
    + by intros [= <- <-].
Qed.

(** X19: once startup has succeeded, the way the run ends decides what is
    left behind.  When [run_server] ends with an exception (the
    [SystemExit] of a handled signal, or what is not an [Exception] out
    of a request), [cleanup] has run last: its two [unlink] calls end the
    trace, and neither the socket nor the PID file is left.  When a
    signal without a handler ends the process, nothing is cleaned up:
    the socket and the PID file stay where the startup put them, as they
    are while the daemon waits. *)
Theorem run_server_exit_clean arrivals st o st' :
  starts E (files st) = true ->
  run_server unicode_isalnum str_exn E arrivals st = (o, st') ->
  match o with
  | Return _ | Raise _ =>
      artifact_at (files st') SOCKET_PATH = false
      /\ artifact_at (files st') PID_FILE = false
      /\ exists evs,
           trace st'
           = trace st ++ evs ++ [EUnlink SOCKET_PATH; EUnlink PID_FILE]
  | Blocked | Killed =>
      files st' = serving_files E (files st)
      /\ artifact_at (files st') SOCKET_PATH = true
      /\ artifact_at (files st') PID_FILE = true
  end.
Proof.
  intros Hstarts Hrun.
  destruct (run_server_started unicode_isalnum str_exn E arrivals st Hstarts)
    as [evs0 Hstarted].
  destruct (silent_accept_loop unicode_isalnum str_exn E arrivals
              (after st (serving_files E (files st)) evs0))
    as (evsS & HtrS & _).
  pose proof (accept_loop_files arrivals
                (after st (serving_files E (files st)) evs0)) as Hfiles.
  assert (artifact_at (serving_files E (files st)) SOCKET_PATH = true
          /\ artifact_at (serving_files E (files st)) PID_FILE = true)
    as [HaS HaP].
  { unfold artifact_at, serving_files.
    rewrite !os_lookup_plain by (apply SOCKET_PATH_plain || apply PID_FILE_plain).
    rewrite lookup_insert_eq, lookup_insert_ne by apply SOCKET_PATH_PID_FILE.
    by rewrite lookup_insert_eq. }
  rewrite Hstarted in Hrun. unfold try_finally in Hrun.
  destruct (accept_loop unicode_isalnum str_exn E arrivals _)
    as [[[]|e| |] st2]; rewrite ?cleanup_run in Hrun;
    injection Hrun as <- <-.
  3,4: (rewrite (Hfiles _ _ eq_refl) by auto; cbn [files after]; done).
  all: cbn [files trace after snd] in *.
  all: split; [apply artifact_at_unlinked_other, artifact_at_unlinked,
                 SOCKET_PATH_plain|].
  all: split; [apply artifact_at_unlinked, PID_FILE_plain|].
  all: exists (evs0 ++ evsS); by rewrite HtrS, <- !app_assoc.
Qed.

End Exit.

Lemma run_server_exit_clean_witness :
  (exists st',
     run_server (fun _ => false) example_str_exn example_env
       [Signal SIGINT] example_state = (Raise (SystemExit 0), st')
     /\ artifact_at (files st') SOCKET_PATH = false
     /\ artifact_at (files st') PID_FILE = false)
  /\ (exists st',
        run_server (fun _ => false) example_str_exn example_env
          [Connect image_client; Signal 9] example_state = (Killed, st')
        /\ artifact_at (files st') SOCKET_PATH = true
        /\ artifact_at (files st') PID_FILE = true).
Proof.
  split.
  - eexists. split; [vm_compute; reflexivity|].
    destruct (run_server_exit_clean (fun _ => false) example_str_exn
                example_env [Signal SIGINT] example_state
                (Raise (SystemExit 0)) _
                ltac:(vm_compute; reflexivity)
                ltac:(vm_compute; reflexivity))
      as (HS & HP & _).
    split; [exact HS|exact HP].
  - eexists. split; [vm_compute; reflexivity|].
    destruct (run_server_exit_clean (fun _ => false) example_str_exn
                example_env [Connect image_client; Signal 9] example_state
                Killed _
                ltac:(vm_compute; reflexivity)
                ltac:(vm_compute; reflexivity))
      as (_ & HS & HP).
    split; [exact HS|exact HP].
Defined.
